(** * lion: router composition, middleware chains and the request context

    A shallow embedding of [router.go], [context.go] and the matcher
    adapter of the lion HTTP router, together with the properties of the
    design document that can be stated over it.

    Go pointers to routers and matchers are addresses into an explicit
    store, so that sharing (one matcher per tree, a parent mutated through
    a child) is visible.  A Go panic is the [Panic] outcome. *)

From Stdlib Require Import ZArith Lia Ascii String.
From stdpp Require Import base option list strings gmap.

Local Open Scope string_scope.
Local Open Scope list_scope.
Local Open Scope nat_scope.

(** ** Outcomes of setup-time and request-time code *)

(** [Ok a]: the call returned [a].  [Panic msg]: the call panicked.
    [Stuck]: the call does not return (a parent chain that never reaches a
    root) or follows a pointer that no Go program can hold. *)
Inductive result (A : Type) : Type :=
| Ok (a : A)
| Panic (msg : string)
| Stuck.
Arguments Ok {A} a.
Arguments Panic {A} msg.
Arguments Stuck {A}.

Definition rbind {A B : Type} (m : result A) (f : A -> result B) : result B :=
  match m with
  | Ok a => f a
  | Panic msg => Panic msg
  | Stuck => Stuck
  end.

Notation "'do' x <- m ; k" := (rbind m (fun x => k))
  (at level 10, x binder, m at level 100, k at level 200).

(** ** context.go *)

Inductive error : Type :=
| ErrInvalidRedirectStatusCode
| ErrOther (msg : string).

(** type parameter struct { key string; val string } *)
Record parameter : Type := mkParameter { key : string; val : string }.

(** The [http.ResponseWriter] a context embeds belongs to net/http.  Its
    state is what the calls made on it leave behind: the header map, the
    status codes passed to [WriteHeader] (oldest first), the chunks passed
    to [Write], and the error the connection answers a [Write] with. *)
Record responseWriter : Type := mkWriter {
  wHeader : gmap string string;
  wStatus : list Z;
  wBody : list string;
  wErr : option error
}.

Definition w_Set (k v : string) (w : responseWriter) : responseWriter :=
  mkWriter (<[k := v]> (wHeader w)) (wStatus w) (wBody w) (wErr w).

Definition w_WriteHeader (code : Z) (w : responseWriter) : responseWriter :=
  mkWriter (wHeader w) (wStatus w ++ [code]) (wBody w) (wErr w).

Definition w_Write (b : string) (w : responseWriter) : responseWriter * option error :=
  (mkWriter (wHeader w) (wStatus w) (wBody w ++ [b]) (wErr w), wErr w).

(** What the context reads of a [*http.Request]. *)
Record request : Type := mkRequest { reqMethod : string; reqPath : string }.

(** The upstream [context.Context]: its [Value] on string keys. *)
Definition parentContext : Type := string -> option string.

(** type ctx struct: a nil pointer or interface is [None]. *)
Record ctx : Type := mkCtx {
  ResponseWriter : option responseWriter;
  parent : option parentContext;
  req : option request;
  params : list parameter;
  code : Z;
  statusWritten : bool;
  tags : list string;
  searchHistory : list string
}.

Definition nilDeref : string := "invalid memory address or nil pointer dereference".

Definition newContextWithResReq (c : option parentContext)
    (w : option responseWriter) (r : option request) : ctx :=
  mkCtx w c r [] 0 false [""] [].

Definition newContextWithParent (c : option parentContext) : ctx :=
  newContextWithResReq c None None.

Definition newContext : ctx := newContextWithParent (Some (fun _ => None)).

Definition AddParam (k v : string) (c : ctx) : ctx :=
  mkCtx (ResponseWriter c) (parent c) (req c) (params c ++ [mkParameter k v])
        (code c) (statusWritten c) (tags c) (searchHistory c).

(** The range loop of [ParamOk] over a slice of parameters. *)
Fixpoint ParamOk_loop (ps : list parameter) (k : string) : string * bool :=
  match ps with
  | [] => ("", false)
  | p :: ps' => if decide (key p = k) then (val p, true) else ParamOk_loop ps' k
  end.

Definition ParamOk (k : string) (c : ctx) : string * bool := ParamOk_loop (params c) k.

Definition Param (k : string) (c : ctx) : string := fst (ParamOk k c).

(** [indexOf] counts down from [len(c.params) - 1]; [None] is Go's [-1]. *)
Fixpoint indexOf_loop (ps : list parameter) (n : nat) (k : string) : option nat :=
  match n with
  | O => None
  | S i =>
      match ps !! i with
      | Some p => if decide (key p = k) then Some i else indexOf_loop ps i k
      | None => indexOf_loop ps i k
      end
  end.

Definition indexOf (k : string) (c : ctx) : option nat :=
  indexOf_loop (params c) (length (params c)) k.

Definition Remove (k : string) (c : ctx) : result ctx :=
  match indexOf k c with
  | None => Panic ("Cannot remove unknown key '" +:+ k +:+ "' from context")
  | Some i =>
      Ok (mkCtx (ResponseWriter c) (parent c) (req c)
                (take i (params c) ++ drop (S i) (params c))
                (code c) (statusWritten c) (tags c) (searchHistory c))
  end.

Definition WithStatus (n : Z) (c : ctx) : ctx :=
  mkCtx (ResponseWriter c) (parent c) (req c) (params c)
        n (statusWritten c) (tags c) (searchHistory c).

Definition isStatusWritten (c : ctx) : bool := statusWritten c.

Definition setWriter (w : responseWriter) (c : ctx) : ctx :=
  mkCtx (Some w) (parent c) (req c) (params c)
        (code c) (statusWritten c) (tags c) (searchHistory c).

Definition writeHeader (c : ctx) : result ctx :=
  if negb (isStatusWritten c) then
    match ResponseWriter c with
    | Some w =>
        Ok (mkCtx (Some (w_WriteHeader (code c) w)) (parent c) (req c) (params c)
                  (code c) true (tags c) (searchHistory c))
    | None => Panic nilDeref
    end
  else Ok c.

Definition WithHeader (k v : string) (c : ctx) : result ctx :=
  match ResponseWriter c with
  | Some w => Ok (setWriter (w_Set k v w) c)
  | None => Panic nilDeref
  end.

Definition setContentType (ctype : string) (c : ctx) : result ctx :=
  WithHeader "Content-Type" ctype c.

Definition contentTypeJSON : string := "application/json; charset=utf-8".
Definition contentTypeXML : string := "application/xml; charset=utf-8".
Definition contentTypeTextPlain : string := "text/plain; charset=utf-8".

Definition raw (b : string) (contentType : string) (c : ctx) : result (ctx * option error) :=
  do c1 <- setContentType contentType c;
  do c2 <- writeHeader c1;
  match ResponseWriter c2 with
  | Some w => let '(w', err) := w_Write b w in Ok (setWriter w' c2, err)
  | None => Panic nilDeref
  end.

(** [json.Marshal] and [xml.Marshal] are library code: the renderers take
    their outcome, the bytes or the error. *)
Definition JSON (marshal : string + error) (c : ctx) : result (ctx * option error) :=
  match marshal with
  | inr err => Ok (c, Some err)
  | inl b => raw b contentTypeJSON c
  end.

Definition XML (marshal : string + error) (c : ctx) : result (ctx * option error) :=
  match marshal with
  | inr err => Ok (c, Some err)
  | inl b => raw b contentTypeXML c
  end.

(** [String] after [fmt.Sprintf] has produced [str]. *)
Definition String_ (str : string) (c : ctx) : result (ctx * option error) :=
  raw str contentTypeTextPlain c.

(** [Error]: [herr] is the status of an [HTTPError], [None] for any other
    error.  [Error] passes [err.Error()] to [String], which uses it as the
    format of [fmt.Sprintf] with no operands; [formatted] is what
    [fmt.Sprintf] makes of it (the text itself when it holds no '%'). *)
Definition Error (herr : option Z) (formatted : string) (c : ctx)
    : result (ctx * option error) :=
  match herr with
  | Some status => String_ formatted (WithStatus status c)
  | None => String_ formatted c
  end.

(** [http.Redirect] of net/http, as far as the writer sees it: the
    Location header is set and the status is written. *)
Definition http_Redirect (urlStr : string) (n : Z) (w : responseWriter) : responseWriter :=
  w_WriteHeader n (w_Set "Location" urlStr w).

Definition Redirect (urlStr : string) (c : ctx) : result (ctx * option error) :=
  if (code c <? 300)%Z || (code c >? 308)%Z then
    Ok (c, Some ErrInvalidRedirectStatusCode)
  else
    match ResponseWriter c, req c with
    | Some w, Some _ => Ok (setWriter (http_Redirect urlStr (code c) w) c, None)
    | _, _ => Panic nilDeref
    end.

Definition Reset (c : ctx) : ctx :=
  mkCtx None None None (take 0 (params c)) 0 false (tags c) (take 0 (searchHistory c)).

(** The operations on a context that commit the status through
    [writeHeader], and the ones that only stage state. *)
Inductive ctxOp : Type :=
| OpAddParam (k v : string)
| OpWithStatus (n : Z)
| OpWithHeader (k v : string)
| OpWriteHeader
| OpRaw (b contentType : string)
| OpJSON (marshal : string + error)
| OpXML (marshal : string + error)
| OpString (str : string)
| OpError (herr : option Z) (formatted : string).

Definition stepOp (o : ctxOp) (c : ctx) : result ctx :=
  match o with
  | OpAddParam k v => Ok (AddParam k v c)
  | OpWithStatus n => Ok (WithStatus n c)
  | OpWithHeader k v => WithHeader k v c
  | OpWriteHeader => writeHeader c
  | OpRaw b t => do r <- raw b t c; Ok (fst r)
  | OpJSON m => do r <- JSON m c; Ok (fst r)
  | OpXML m => do r <- XML m c; Ok (fst r)
  | OpString s => do r <- String_ s c; Ok (fst r)
  | OpError h t => do r <- Error h t c; Ok (fst r)
  end.

Fixpoint runOps (ops : list ctxOp) (c : ctx) : result ctx :=
  match ops with
  | [] => Ok c
  | o :: ops' => do c' <- stepOp o c; runOps ops' c'
  end.

(** The operations that reach [writeHeader]: [writeHeader] itself, [raw]
    and the renderers built on it once their bytes are there. *)
Definition commitsStatus (o : ctxOp) : bool :=
  match o with
  | OpWriteHeader | OpRaw _ _ | OpString _ | OpError _ _ => true
  | OpJSON (inl _) | OpXML (inl _) => true
  | _ => false
  end.

(** Number of [WriteHeader] calls the writer of a context has received. *)
Definition commits (c : ctx) : nat :=
  match ResponseWriter c with
  | Some w => length (wStatus w)
  | None => 0
  end.

(** ** router.go and the matcher adapter *)

(** What a handler does is seen as the sequence of side effects it leaves:
    a handler maps the effects so far to the effects after it has run. *)
Definition World : Type := list string.
Definition Handler : Type := World -> World.

(** A middleware is its [ServeNext]: a handler decorator. *)
Definition Middleware : Type := Handler -> Handler.
Abbreviation Middlewares := (list Middleware) (only parsing).

(** Modelled from the spec: [Middlewares.BuildHandler] is called by
    [buildMiddlewares] but is not among the sources.  The design says: wrap
    the handler with the sequence so that execution order is insertion
    order, the first-registered middleware being closest to the outer
    caller. *)
Definition BuildHandler (mws : Middlewares) (handler : Handler) : Handler :=
  foldr (fun mw next => mw next) handler mws.

(** A middleware and a terminal handler with one observable effect each. *)
Definition announce (name : string) : Middleware :=
  fun next w => next (w ++ [name])%list.
Definition terminal (name : string) : Handler :=
  fun w => (w ++ [name])%list.

(** A pointer is the index of its target in the store. *)
Abbreviation addr := nat (only parsing).

(** type registeredHandler struct { method, pattern string; handler Handler } *)
Record registeredHandler : Type := mkRegistered {
  rh_method : string;
  rh_pattern : string;
  rh_handler : Handler
}.

(** type Router struct.  [rm] points to the matcher, [router] to the
    parent (to the node itself at a root). *)
Record Router : Type := mkRouter {
  rm : addr;
  router : addr;
  middlewares : Middlewares;
  pattern : string;
  notFoundHandler : option Handler;
  registeredHandlers : list registeredHandler;
  namedMiddlewares : gmap string Middlewares
}.

(** A call [matcher.Set(pattern, handler, matcher.Tags{method})]. *)
Record setCall : Type := mkSet {
  set_pattern : string;
  set_value : Handler;
  set_tags : list string
}.

(** Modelled from the spec: the pattern-matching engine behind
    [pathMatcher] is an external collaborator that stores what is
    registered; a matcher is the sequence of [Set] calls it received. *)
Abbreviation pathMatcher := (list setCall) (only parsing).

Record store : Type := mkStore {
  routers : list Router;
  matchers : list pathMatcher
}.

Definition emptyStore : store := mkStore [] [].

Definition getRouter (a : addr) (s : store) : result Router :=
  match routers s !! a with
  | Some r => Ok r
  | None => Stuck
  end.

Definition setRouter (a : addr) (r : Router) (s : store) : store :=
  mkStore (<[a := r]> (routers s)) (matchers s).

Definition startsWithSlash (p : string) : bool :=
  match String.get 0 p with
  | Some c => Ascii.eqb c "/"%char
  | None => false
  end.

Definition validatePattern (p : string) : result unit :=
  if (0 <? String.length p)%nat && negb (startsWithSlash p) then
    Panic ("path must start with '/' in path '" +:+ p +:+ "'")
  else Ok tt.

(** Modelled from the spec: the table [allowedHTTPMethods] is not among the
    sources; it is the fixed set of supported verbs, the ones
    [methodsHandlers] has a slot for. *)
Definition allowedHTTPMethods : list string :=
  ["GET"; "HEAD"; "POST"; "PUT"; "DELETE"; "TRACE"; "OPTIONS"; "CONNECT"; "PATCH"].

Fixpoint isInStringSlice (slice : list string) (expected : string) : bool :=
  match slice with
  | [] => false
  | v :: rest => if String.eqb v expected then true else isInStringSlice rest expected
  end.

Definition prevalidation (method p : string) : result unit :=
  if (String.length p =? 0)%nat || negb (startsWithSlash p) then
    Panic ("path must begin with '/' in path '" +:+ p +:+ "'")
  else if negb (isInStringSlice allowedHTTPMethods method) then
    Panic ("lion: invalid http method => " +:+ method)
  else Ok tt.

(** func (d *pathMatcher) Register *)
Definition Register (m : addr) (method p : string) (handler : Handler) (s : store)
    : result (unit * store) :=
  do _ <- prevalidation method p;
  match matchers s !! m with
  | Some calls =>
      Ok (tt, mkStore (routers s) (<[m := calls ++ [mkSet p handler [method]]]> (matchers s)))
  | None => Stuck
  end.

(** func (r *Router) Use *)
Definition Use (a : addr) (mws : Middlewares) (s : store) : result (unit * store) :=
  do r <- getRouter a s;
  Ok (tt, setRouter a
            (mkRouter (rm r) (router r) (middlewares r ++ mws) (pattern r)
                      (notFoundHandler r) (registeredHandlers r) (namedMiddlewares r)) s).

(** func New.  The root makes the matcher of its tree; of the matchers
    only the adapter [pathMatcher] is among the sources, and it stands for
    the one [New] creates. *)
Definition New (mws : Middlewares) (s : store) : result (addr * store) :=
  let m := length (matchers s) in
  let a := length (routers s) in
  let r := mkRouter m a [] "" None [] ∅ in
  do '(_, s1) <- Use a mws (mkStore (routers s ++ [r]) (matchers s ++ [[]]));
  Ok (a, s1).

Definition isRoot (a : addr) (r : Router) : bool := (router r =? a)%nat.

(** The pattern [Group] resolves for the child: [p := r.pattern + pattern],
    replaced by [r.pattern] when [pattern == "/" && r.pattern != "/"]. *)
Definition groupPattern (own pat : string) : string :=
  if String.eqb pat "/" && negb (String.eqb own "/") then own else own +:+ pat.

(** The pattern [Handle] registers: [r.pattern] when
    [!r.isRoot() && pattern == "/"], else [r.pattern + pattern]. *)
Definition handlePattern (root : bool) (own pat : string) : string :=
  if negb root && String.eqb pat "/" then own else own +:+ pat.

(** func (r *Router) Group *)
Definition Group (a : addr) (pat : string) (mws : Middlewares) (s : store)
    : result (addr * store) :=
  do r <- getRouter a s;
  let p := groupPattern (pattern r) pat in
  do _ <- validatePattern p;
  let na := length (routers s) in
  let nr := mkRouter (rm r) a [] p None [] ∅ in
  do '(_, s1) <- Use na mws (mkStore (routers s ++ [nr]) (matchers s));
  Ok (na, s1).

(** func (r *Router) buildMiddlewares.  The recursion follows parent
    pointers; [fuel] bounds the number of nodes visited. *)
Fixpoint buildMiddlewares (fuel : nat) (rs : list Router) (a : addr) (handler : Handler)
    : result Handler :=
  match fuel with
  | O => Stuck
  | S fuel' =>
      match rs !! a with
      | None => Stuck
      | Some r =>
          let handler := BuildHandler (middlewares r) handler in
          if negb (isRoot a r) then buildMiddlewares fuel' rs (router r) handler
          else Ok handler
      end
  end.

(** func (r *Router) Handle.  A chain of parents without a cycle visits
    each node at most once, so the number of nodes is fuel enough. *)
Definition Handle (a : addr) (method pat : string) (handler : Handler) (s : store)
    : result (unit * store) :=
  do _ <- validatePattern pat;
  do r <- getRouter a s;
  let p := handlePattern (isRoot a r) (pattern r) pat in
  do built <- buildMiddlewares (length (routers s)) (routers s) a handler;
  let s1 := setRouter a
              (mkRouter (rm r) (router r) (middlewares r) (pattern r) (notFoundHandler r)
                        (registeredHandlers r ++ [mkRegistered method pat built])
                        (namedMiddlewares r)) s in
  do up <- getRouter (router r) s1;
  Register (rm up) method p built s1.

(** The loop of [Mount] over the registered handlers of the mounted router. *)
Fixpoint replay (sub : addr) (rhs : list registeredHandler) (s : store)
    : result (unit * store) :=
  match rhs with
  | [] => Ok (tt, s)
  | rh :: rest =>
      do '(_, s1) <- Handle sub (rh_method rh) (rh_pattern rh) (rh_handler rh) s;
      replay sub rest s1
  end.

(** func (r *Router) Mount *)
Definition Mount (a : addr) (pat : string) (other : addr) (mws : Middlewares) (s : store)
    : result (unit * store) :=
  do '(sub, s1) <- Group a pat mws s;
  do o <- getRouter other s1;
  replay sub (registeredHandlers o) s1.

(** func (r *Router) Define *)
Definition Define (a : addr) (name : string) (mws : Middlewares) (s : store)
    : result (unit * store) :=
  do r <- getRouter a s;
  Ok (tt, setRouter a
            (mkRouter (rm r) (router r) (middlewares r) (pattern r) (notFoundHandler r)
                      (registeredHandlers r)
                      (<[name := default [] (namedMiddlewares r !! name) ++ mws]>
                         (namedMiddlewares r))) s).

Definition hasNamed (name : string) (r : Router) : bool :=
  bool_decide (is_Some (namedMiddlewares r !! name)).

(** func (r *Router) UseNamed *)
Fixpoint UseNamed (fuel : nat) (a : addr) (name : string) (s : store)
    : result (unit * store) :=
  match fuel with
  | O => Stuck
  | S fuel' =>
      do r <- getRouter a s;
      if hasNamed name r then
        Use a (default [] (namedMiddlewares r !! name)) s
      else if negb (isRoot a r) then
        UseNamed fuel' (router r) name s
      else Panic ("Unknow named middlewares: " +:+ name)
  end.

(** func (r *Router) NotFoundHandler *)
Definition NotFoundHandler (a : addr) (handler : Handler) (s : store) : result (unit * store) :=
  do r <- getRouter a s;
  Ok (tt, setRouter a
            (mkRouter (rm r) (router r) (middlewares r) (pattern r) (Some handler)
                      (registeredHandlers r) (namedMiddlewares r)) s).

Definition isOk {A : Type} (r : result A) : bool :=
  match r with
  | Ok _ => true
  | _ => false
  end.

(** An entry whose replay under a group at [subPattern] passes both
    validations of [Handle]. *)
Definition replayable (subPattern : string) (rh : registeredHandler) : bool :=
  isOk (validatePattern (rh_pattern rh)) &&
  isOk (prevalidation (rh_method rh) (handlePattern false subPattern (rh_pattern rh))).

(** *** Stores that setup code can build *)

(** Every parent was allocated before its children (a root is its own
    parent) and every matcher pointer is allocated. *)
Fixpoint wf_from (nm : nat) (a : addr) (rs : list Router) : bool :=
  match rs with
  | [] => true
  | r :: rs' => (router r <=? a)%nat && (rm r <? nm)%nat && wf_from nm (S a) rs'
  end.

Definition wf (s : store) : Prop := wf_from (length (matchers s)) 0 (routers s) = true.

(** The design's ordering rule, read as a function: the middlewares in
    scope at a node are those of its ancestors, outermost ancestor first,
    followed by its own, each node's in registration order. *)
Fixpoint scopeMiddlewares (fuel : nat) (rs : list Router) (a : addr) : option Middlewares :=
  match fuel with
  | O => None
  | S fuel' =>
      match rs !! a with
      | None => None
      | Some r =>
          if isRoot a r then Some (middlewares r)
          else match scopeMiddlewares fuel' rs (router r) with
               | Some up => Some (up ++ middlewares r)
               | None => None
               end
      end
  end.

(** The resolution rule of [Group] as the design words it: concatenation,
    except for the segment "/" under a node that is not the tree root. *)
Definition spec_groupPattern (parentIsRoot : bool) (parentPattern seg : string) : string :=
  if String.eqb seg "/" && negb parentIsRoot then parentPattern else parentPattern +:+ seg.

(** ** Concrete contexts and stores used in the examples *)

Definition demoWriter : responseWriter := mkWriter ∅ [] [] None.

Definition demoCtx : ctx :=
  newContextWithResReq (Some (fun _ => None)) (Some demoWriter) (Some (mkRequest "GET" "/users/42")).

Definition demoOps : list ctxOp :=
  [OpAddParam "id" "42"; OpWithStatus 201; OpString "created";
   OpJSON (inl "{}"); OpWriteHeader; OpError (Some 500%Z) "Internal Server Error"].

Definition demoCtxAfter : ctx :=
  match runOps demoOps demoCtx with
  | Ok c => c
  | _ => demoCtx
  end.

(** [demoCtx] after [WithStatus 302], [String] and then [Redirect]. *)
Definition demoRedirected : result (ctx * option error) :=
  do r <- String_ "moved" (WithStatus 302 demoCtx);
  Redirect "/login" (fst r).

Definition demoRedirectedCtx : ctx :=
  match demoRedirected with
  | Ok r => fst r
  | _ => demoCtx
  end.

Definition storeOf (r : result (unit * store)) : store :=
  match r with
  | Ok (_, s) => s
  | _ => emptyStore
  end.

(** A router R (address 0) with a middleware and one route, and the root M
    (address 1) of another tree. *)
Definition mountScene : store :=
  storeOf (do '(r, s) <- New [announce "R"] emptyStore;
           do '(_, s) <- Handle r "GET" "/x" (terminal "H") s;
           do '(_, s) <- New [announce "M"] s;
           Ok (tt, s)).

(** The same two routers, R holding the route GET /. *)
Definition mountSlashScene : store :=
  storeOf (do '(r, s) <- New [announce "R"] emptyStore;
           do '(_, s) <- Handle r "GET" "/" (terminal "H") s;
           do '(_, s) <- New [announce "M"] s;
           Ok (tt, s)).

Definition mountSceneAfter : store := storeOf (Mount 1 "/m" 0 [] mountScene).

(** What a handler leaves when run from an empty world, and what the
    handlers registered with a matcher leave. *)
Definition effectsOf (r : result Handler) : option World :=
  match r with
  | Ok h => Some (h [])
  | _ => None
  end.

Definition registeredEffects (s : store) (m : addr) : list (string * list string * World) :=
  map (fun c => (set_pattern c, set_tags c, set_value c []))
      (default [] (matchers s !! m)).

(** A root with middleware M1 (address 0) and a group with middleware M2
    (address 1). *)
Definition orderScene : store :=
  storeOf (do '(root, s) <- New [announce "M1"] emptyStore;
           do '(_, s) <- Group root "/child" [announce "M2"] s;
           Ok (tt, s)).

(** A root X (address 0) that defines "auth", a group Y (address 1) with a
    middleware of its own and a sibling group Z (address 2). *)
Definition namedScene : store :=
  storeOf (do '(x, s) <- New [] emptyStore;
           do '(_, s) <- Define x "auth" [announce "auth"] s;
           do '(_, s) <- Group x "/y" [announce "own"] s;
           do '(_, s) <- Group x "/z" [] s;
           Ok (tt, s)).

Definition namedSceneAfter : store :=
  storeOf (UseNamed (length (routers namedScene)) 1 "auth" namedScene).

(** A bare root (address 0) with a group at "/a" (address 1). *)
Definition slashScene : store :=
  storeOf (do '(root, s) <- New [] emptyStore;
           do '(_, s) <- Group root "/a" [] s;
           Ok (tt, s)).

Definition childPattern (r : result (addr * store)) : option string :=
  match r with
  | Ok (a, s) => pattern <$> routers s !! a
  | _ => None
  end.

(** ** More of context.go, router.go and the matcher adapter *)

(** The status codes the writer of a context has been handed, oldest first. *)
Definition statusLog (c : ctx) : list Z :=
  match ResponseWriter c with
  | Some w => wStatus w
  | None => []
  end.

(** func (r *Router) UseFunc: one [Use] per function. *)
Fixpoint UseFunc (a : addr) (middlewareFuncs : list Middleware) (s : store)
    : result (unit * store) :=
  match middlewareFuncs with
  | [] => Ok (tt, s)
  | fn :: rest => do '(_, s1) <- Use a [fn] s; UseFunc a rest s1
  end.

(** func (r *Router) DefineFunc: one [Define] per function. *)
Fixpoint DefineFunc (a : addr) (name : string) (mws : list Middleware) (s : store)
    : result (unit * store) :=
  match mws with
  | [] => Ok (tt, s)
  | mw :: rest => do '(_, s1) <- Define a name [mw] s; DefineFunc a name rest s1
  end.

(** func (r *Router) Get, Post, Put, Patch, Delete *)
Definition Get (a : addr) (pat : string) (handler : Handler) (s : store) :=
  Handle a "GET" pat handler s.
Definition Post (a : addr) (pat : string) (handler : Handler) (s : store) :=
  Handle a "POST" pat handler s.
Definition Put (a : addr) (pat : string) (handler : Handler) (s : store) :=
  Handle a "PUT" pat handler s.
Definition Patch (a : addr) (pat : string) (handler : Handler) (s : store) :=
  Handle a "PATCH" pat handler s.
Definition Delete (a : addr) (pat : string) (handler : Handler) (s : store) :=
  Handle a "DELETE" pat handler s.

(** The node on the path from [a] to the root that [UseNamed] stops at:
    the nearest one with an entry for the name. *)
Fixpoint definingNode (fuel : nat) (rs : list Router) (a : addr) (name : string)
    : option addr :=
  match fuel with
  | O => None
  | S fuel' =>
      match rs !! a with
      | None => None
      | Some r =>
          if hasNamed name r then Some a
          else if negb (isRoot a r) then definingNode fuel' rs (router r) name
          else None
      end
  end.

(** type methodsHandlers struct: one slot per verb, nil is [None]. *)
Record methodsHandlers : Type := mkMethods {
  mh_get : option Handler;
  mh_head : option Handler;
  mh_post : option Handler;
  mh_put : option Handler;
  mh_delete : option Handler;
  mh_trace : option Handler;
  mh_options : option Handler;
  mh_connect : option Handler;
  mh_patch : option Handler
}.

(** What [creator.New] returns: [&methodsHandlers{}]. *)
Definition newMethodsHandlers : methodsHandlers :=
  mkMethods None None None None None None None None None.

(** func (gs *methodsHandlers) addHandler.  The verb constants are not among
    the sources; they are the verbs' names, as the literals of router.go. *)
Definition addHandler (method : string) (handler : option Handler) (gs : methodsHandlers)
    : methodsHandlers :=
  if String.eqb method "GET" then
    mkMethods handler (mh_head gs) (mh_post gs) (mh_put gs) (mh_delete gs) (mh_trace gs)
              (mh_options gs) (mh_connect gs) (mh_patch gs)
  else if String.eqb method "HEAD" then
    mkMethods (mh_get gs) handler (mh_post gs) (mh_put gs) (mh_delete gs) (mh_trace gs)
              (mh_options gs) (mh_connect gs) (mh_patch gs)
  else if String.eqb method "POST" then
    mkMethods (mh_get gs) (mh_head gs) handler (mh_put gs) (mh_delete gs) (mh_trace gs)
              (mh_options gs) (mh_connect gs) (mh_patch gs)
  else if String.eqb method "PUT" then
    mkMethods (mh_get gs) (mh_head gs) (mh_post gs) handler (mh_delete gs) (mh_trace gs)
              (mh_options gs) (mh_connect gs) (mh_patch gs)
  else if String.eqb method "DELETE" then
    mkMethods (mh_get gs) (mh_head gs) (mh_post gs) (mh_put gs) handler (mh_trace gs)
              (mh_options gs) (mh_connect gs) (mh_patch gs)
  else if String.eqb method "TRACE" then
    mkMethods (mh_get gs) (mh_head gs) (mh_post gs) (mh_put gs) (mh_delete gs) handler
              (mh_options gs) (mh_connect gs) (mh_patch gs)
  else if String.eqb method "OPTIONS" then
    mkMethods (mh_get gs) (mh_head gs) (mh_post gs) (mh_put gs) (mh_delete gs) (mh_trace gs)
              handler (mh_connect gs) (mh_patch gs)
  else if String.eqb method "CONNECT" then
    mkMethods (mh_get gs) (mh_head gs) (mh_post gs) (mh_put gs) (mh_delete gs) (mh_trace gs)
              (mh_options gs) handler (mh_patch gs)
  else if String.eqb method "PATCH" then
    mkMethods (mh_get gs) (mh_head gs) (mh_post gs) (mh_put gs) (mh_delete gs) (mh_trace gs)
              (mh_options gs) (mh_connect gs) handler
  else gs.

(** func (gs *methodsHandlers) getHandler *)
Definition getHandler (method : string) (gs : methodsHandlers) : option Handler :=
  if String.eqb method "GET" then mh_get gs
  else if String.eqb method "HEAD" then mh_head gs
  else if String.eqb method "POST" then mh_post gs
  else if String.eqb method "PUT" then mh_put gs
  else if String.eqb method "DELETE" then mh_delete gs
  else if String.eqb method "TRACE" then mh_trace gs
  else if String.eqb method "OPTIONS" then mh_options gs
  else if String.eqb method "CONNECT" then mh_connect gs
  else if String.eqb method "PATCH" then mh_patch gs
  else None.

(** The [interface{}] passed to [Set]: nil, a Handler, or anything else. *)
Inductive setValue : Type :=
| ValueNil
| ValueHandler (h : Handler)
| ValueOther.

(** func (gs *methodsHandlers) Set *)
Definition mh_Set (value : setValue) (tgs : list string) (gs : methodsHandlers)
    : result methodsHandlers :=
  match tgs with
  | [method] =>
      match value with
      | ValueNil => Ok (addHandler method None gs)
      | ValueHandler h => Ok (addHandler method (Some h) gs)
      | ValueOther => Panic "Not handler"
      end
  | _ => Panic "Length != 1"
  end.

(** func (gs *methodsHandlers) Get *)
Definition mh_Get (tgs : list string) (gs : methodsHandlers) : result (option Handler) :=
  match tgs with
  | [method] => Ok (getHandler method gs)
  | _ => Panic "No method"
  end.

(** A context with two pairs under one key and one under another. *)
Definition demoParams : ctx :=
  AddParam "id" "2" (AddParam "name" "n" (AddParam "id" "1" newContext)).

(** [demoCtx] after [WithStatus 201] and [String], and after more staging
    and rendering. *)
Definition demoRendered (str : string) : ctx * option error :=
  match String_ str (WithStatus 201 demoCtx) with
  | Ok r => r
  | _ => (demoCtx, None)
  end.

Definition demoCtxLater : ctx :=
  match runOps [OpWithStatus 500; OpString "again"; OpError (Some 404%Z) "Not Found"]
               (fst (demoRendered "created")) with
  | Ok c => c
  | _ => demoCtx
  end.

Definition demoRemoved : ctx :=
  match Remove "id" demoParams with
  | Ok c => c
  | _ => demoParams
  end.

(** Nested groups: [r.Group(seg1).Group(seg2)...], each without
    middlewares; the innermost group is returned. *)
Fixpoint groupChain (a : addr) (segs : list string) (s : store) : result (addr * store) :=
  match segs with
  | [] => Ok (a, s)
  | seg :: rest => do '(g, s1) <- Group a seg [] s; groupChain g rest s1
  end.

(** * Properties of the request context *)

Section ParamLookup.
Variable k : string.

Lemma ParamOk_loop_absent (ps : list parameter) :
  Forall (fun p => key p ≠ k) ps → ParamOk_loop ps k = ("", false).
Proof.
  induction 1 as [|p ps Hp _ IH]; simpl; [reflexivity|].
  destruct (decide (key p = k)); [contradiction|exact IH].
Qed.

(** The loop stops at the first pair with the key, whatever follows. *)
Lemma ParamOk_loop_first (before after : list parameter) (p : parameter) :
  Forall (fun q => key q ≠ k) before → key p = k →
  ParamOk_loop (before ++ p :: after) k = (val p, true).
Proof.
  induction 1 as [|q qs Hq _ IH]; intros Hp; simpl.
  - destruct (decide (key p = k)); [reflexivity|contradiction].
  - destruct (decide (key q = k)); [contradiction|auto].
Qed.
End ParamLookup.

Lemma ParamOk_unset (k : string) (c : ctx) :
  Forall (fun p => key p ≠ k) (params c) → ParamOk k c = ("", false).
Proof. apply ParamOk_loop_absent. Qed.

(** With every earlier pair under another key, a lookup after a match that
    added one pair finds it. *)
Lemma ParamOk_single (k v : string) :
  ParamOk k (AddParam k v newContext) = (v, true).
Proof.
  unfold ParamOk, AddParam, newContext, newContextWithParent, newContextWithResReq; simpl.
  destruct (decide (k = k)); [reflexivity|contradiction].
Qed.

(** C5 (as the code has it): [AddParam] appends, and [ParamOk] scans from
    the front: with several pairs under one key it answers with the one
    inserted first, and [true]; for a key with no pair it answers with the
    empty string and [false].  After a match that added ("id","42"), "id"
    gives ("42", true). *)
Theorem C5_ParamOk_first_inserted_wins
    (c : ctx) (k : string) (before after : list parameter) (p : parameter) :
  params c = before ++ p :: after →
  Forall (fun q => key q ≠ k) before →
  key p = k →
  ParamOk k c = (val p, true) ∧
  (∀ v, params (AddParam k v c) = params c ++ [mkParameter k v] ∧
        ParamOk k (AddParam k v c) = (val p, true)) ∧
  (∀ c' : ctx, Forall (fun q => key q ≠ k) (params c') → ParamOk k c' = ("", false)) ∧
  ParamOk "id" (AddParam "id" "42" newContext) = ("42", true) ∧
  ParamOk "name" (AddParam "id" "42" newContext) = ("", false).
Proof.
  intros Hps Hbefore Hp. split; [|split; [|split; [|split]]].
  - unfold ParamOk. rewrite Hps. apply ParamOk_loop_first; assumption.
  - intros v. split; [reflexivity|].
    unfold ParamOk, AddParam; cbn [params]. rewrite Hps, <- app_assoc. simpl.
    apply ParamOk_loop_first; assumption.
  - intros c'. apply ParamOk_unset.
  - reflexivity.
  - reflexivity.
Qed.

Lemma C5_ParamOk_first_inserted_wins_witness :
  ParamOk "id" (AddParam "id" "2" (AddParam "id" "1" newContext)) = ("1", true) ∧
  (∀ v, params (AddParam "id" v (AddParam "id" "2" (AddParam "id" "1" newContext)))
          = params (AddParam "id" "2" (AddParam "id" "1" newContext)) ++ [mkParameter "id" v] ∧
        ParamOk "id" (AddParam "id" v (AddParam "id" "2" (AddParam "id" "1" newContext)))
          = ("1", true)) ∧
  (∀ c' : ctx, Forall (fun q => key q ≠ "id") (params c') → ParamOk "id" c' = ("", false)) ∧
  ParamOk "id" (AddParam "id" "42" newContext) = ("42", true) ∧
  ParamOk "name" (AddParam "id" "42" newContext) = ("", false).
Proof.
  apply (C5_ParamOk_first_inserted_wins
           (AddParam "id" "2" (AddParam "id" "1" newContext)) "id"
           [] [mkParameter "id" "2"] (mkParameter "id" "1")).
  - reflexivity.
  - constructor.
  - reflexivity.
Defined.

(** C5 fails as worded: after ("id","1") and then ("id","2") were added,
    the lookup of "id" gives "1", the pair inserted first, not "2", the most
    recent one. *)
Lemma C5_ParamOk_not_last_write_wins :
  params (AddParam "id" "2" (AddParam "id" "1" newContext))
    = [mkParameter "id" "1"; mkParameter "id" "2"] ∧
  ParamOk "id" (AddParam "id" "2" (AddParam "id" "1" newContext)) = ("1", true) ∧
  ParamOk "id" (AddParam "id" "2" (AddParam "id" "1" newContext)) ≠ ("2", true).
Proof. repeat split. vm_compute. discriminate. Qed.

(** C7: whatever its state, a context that has been reset has no
    parameters, an unwritten status, a zero status code and no parent,
    request or response writer. *)
Theorem C7_Reset_clears (c : ctx) :
  params (Reset c) = [] ∧
  length (params (Reset c)) = 0 ∧
  statusWritten (Reset c) = false ∧
  code (Reset c) = 0%Z ∧
  parent (Reset c) = None ∧
  req (Reset c) = None ∧
  ResponseWriter (Reset c) = None ∧
  searchHistory (Reset c) = [] ∧
  (∀ ops c', runOps ops c = Ok c' →
     params (Reset c') = [] ∧ statusWritten (Reset c') = false) ∧
  (∀ k, ParamOk k (Reset c) = ("", false)).
Proof. repeat split. Qed.

(** One operation never lowers the flag, writes no status once the flag is
    set, and writes exactly one status when it sets the flag. *)
Lemma stepOp_flag (o : ctxOp) (c c' : ctx) :
  stepOp o c = Ok c' →
  (statusWritten c = true → statusWritten c' = true ∧ commits c' = commits c) ∧
  (statusWritten c = false →
     (statusWritten c' = false ∧ commits c' = commits c) ∨
     (statusWritten c' = true ∧ commits c' = commits c + 1)).
Proof.
  destruct c as [w pa rq ps cd sw tg sh].
  destruct o as [k v|n|k v| |b t|[b|e]|[b|e]|str|[st|] text];
    unfold stepOp, Error, String_, JSON, XML, raw, setContentType, WithHeader, writeHeader,
      isStatusWritten, setWriter, WithStatus, AddParam, commits; simpl;
    destruct w as [w|]; destruct sw; simpl; intros H; inversion H; subst; clear H; simpl;
    rewrite ?length_app; simpl; split; intros; try discriminate; auto.
Qed.

Lemma runOps_flag (ops : list ctxOp) : ∀ c c',
  runOps ops c = Ok c' →
  (statusWritten c = true → statusWritten c' = true ∧ commits c' = commits c) ∧
  (statusWritten c = false →
     (statusWritten c' = false ∧ commits c' = commits c) ∨
     (statusWritten c' = true ∧ commits c' = commits c + 1)).
Proof.
  induction ops as [|o ops IH]; intros c c' H; simpl in H.
  - inversion H; subst. split; intros; auto.
  - destruct (stepOp o c) as [c1| |] eqn:Hstep; simpl in H; try discriminate.
    destruct (stepOp_flag _ _ _ Hstep) as [Ht Hf].
    destruct (IH _ _ H) as [IHt IHf].
    split.
    + intros Hw. destruct (Ht Hw) as [Hw1 Hc1]. destruct (IHt Hw1) as [Hw' Hc'].
      split; [assumption|lia].
    + intros Hw. destruct (Hf Hw) as [[Hw1 Hc1]|[Hw1 Hc1]].
      * destruct (IHf Hw1) as [[? ?]|[? ?]]; [left|right]; split; auto; lia.
      * destruct (IHt Hw1) as [? ?]. right; split; auto; lia.
Qed.

(** An operation that reaches [writeHeader] on a context whose status is
    unwritten writes one status and sets the flag. *)
Lemma stepOp_commits (o : ctxOp) (c c' : ctx) :
  commitsStatus o = true → statusWritten c = false → stepOp o c = Ok c' →
  statusWritten c' = true ∧ commits c' = commits c + 1.
Proof.
  destruct c as [w pa rq ps cd sw tg sh]. simpl. intros Ho ->.
  destruct o as [k v|n|k v| |b t|[b|e]|[b|e]|str|[st|] text]; try discriminate Ho;
    unfold stepOp, Error, String_, JSON, XML, raw, setContentType, WithHeader, writeHeader,
      isStatusWritten, setWriter, WithStatus, AddParam, commits; simpl;
    destruct w as [w|]; simpl; intros H; inversion H; subst; clear H; simpl;
    rewrite ?length_app; simpl; auto.
Qed.

Lemma runOps_commits (ops : list ctxOp) : ∀ c c',
  existsb commitsStatus ops = true → statusWritten c = false → runOps ops c = Ok c' →
  statusWritten c' = true ∧ commits c' = commits c + 1.
Proof.
  induction ops as [|o ops IH]; intros c c' Hex Hw H; simpl in Hex, H; [discriminate|].
  destruct (stepOp o c) as [c1| |] eqn:Hstep; simpl in H; try discriminate.
  destruct (commitsStatus o) eqn:Ho.
  - destruct (stepOp_commits _ _ _ Ho Hw Hstep) as [Hw1 Hc1].
    destruct (runOps_flag _ _ _ H) as [Ht _]. destruct (Ht Hw1) as [Hw' Hc'].
    split; [assumption|lia].
  - simpl in Hex. destruct (stepOp_flag _ _ _ Hstep) as [_ Hf].
    destruct (Hf Hw) as [[Hw1 Hc1]|[Hw1 Hc1]].
    + destruct (IH _ _ Hex Hw1 H) as [Hw' Hc']. split; [assumption|lia].
    + destruct (runOps_flag _ _ _ H) as [Ht _]. destruct (Ht Hw1) as [Hw' Hc'].
      split; [assumption|lia].
Qed.

(** C9 (as the code has it): over any sequence of the operations that
    commit through [writeHeader] -- [writeHeader], [raw], [JSON], [XML],
    [String], [Error] -- and of [AddParam], [WithStatus] and [WithHeader],
    the status is written at most once.  On an unwritten context with a
    writer [writeHeader] hands the writer the staged code and sets the flag,
    and a sequence that holds a committing operation ends with the flag set
    and exactly one status more; once the flag is set [writeHeader] writes
    nothing and the flag stays set. *)
Theorem C9_status_committed_at_most_once (ops : list ctxOp) (c c' : ctx) :
  runOps ops c = Ok c' →
  commits c' ≤ commits c + 1 ∧
  (statusWritten c = true →
     writeHeader c = Ok c ∧ statusWritten c' = true ∧ commits c' = commits c) ∧
  (statusWritten c = false →
     (statusWritten c' = true ↔ commits c' = commits c + 1) ∧
     (statusWritten c' = false ↔ commits c' = commits c)) ∧
  (statusWritten c = false → existsb commitsStatus ops = true →
     statusWritten c' = true ∧ commits c' = commits c + 1) ∧
  (∀ (d : ctx) (w : responseWriter),
     statusWritten d = false → ResponseWriter d = Some w →
     ∃ d', writeHeader d = Ok d' ∧ statusWritten d' = true ∧
           (wStatus <$> ResponseWriter d') = Some (wStatus w ++ [code d]) ∧
           code d' = code d ∧ params d' = params d).
Proof.
  intros H. destruct (runOps_flag _ _ _ H) as [Ht Hf].
  split; [|split; [|split; [|split]]].
  - destruct (statusWritten c) eqn:Hw.
    + destruct Ht as [_ ->]; [reflexivity|lia].
    + destruct Hf as [[_ ->]|[_ ->]]; [reflexivity|lia|lia].
  - intros Hw. destruct (Ht Hw) as [? ?]. repeat split; auto.
    unfold writeHeader, isStatusWritten. rewrite Hw. reflexivity.
  - intros Hw. destruct (Hf Hw) as [[Hw' Hc]|[Hw' Hc]]; rewrite Hw', Hc;
      split; split; intros; try discriminate; try lia; auto.
  - intros Hw Hex. apply (runOps_commits ops c c' Hex Hw H).
  - intros d w Hd Hwr. unfold writeHeader, isStatusWritten. rewrite Hd, Hwr. cbn [negb].
    eexists. split; [reflexivity|]. repeat split.
Qed.

Lemma C9_status_committed_at_most_once_witness :
  commits demoCtxAfter ≤ commits demoCtx + 1 ∧
  (statusWritten demoCtx = true →
     writeHeader demoCtx = Ok demoCtx ∧ statusWritten demoCtxAfter = true ∧
     commits demoCtxAfter = commits demoCtx) ∧
  (statusWritten demoCtx = false →
     (statusWritten demoCtxAfter = true ↔ commits demoCtxAfter = commits demoCtx + 1) ∧
     (statusWritten demoCtxAfter = false ↔ commits demoCtxAfter = commits demoCtx)) ∧
  (statusWritten demoCtx = false → existsb commitsStatus demoOps = true →
     statusWritten demoCtxAfter = true ∧ commits demoCtxAfter = commits demoCtx + 1) ∧
  (∀ (d : ctx) (w : responseWriter),
     statusWritten d = false → ResponseWriter d = Some w →
     ∃ d', writeHeader d = Ok d' ∧ statusWritten d' = true ∧
           (wStatus <$> ResponseWriter d') = Some (wStatus w ++ [code d]) ∧
           code d' = code d ∧ params d' = params d).
Proof.
  apply (C9_status_committed_at_most_once demoOps demoCtx demoCtxAfter).
  vm_compute. reflexivity.
Defined.

(** C9 fails as worded: [Redirect] is a rendering operation that commits a
    header without going through [writeHeader]; it neither tests nor sets
    the flag.  With 302 staged, [String] commits 302 and sets the flag, and
    the [Redirect] that follows hands the writer a status again. *)
Lemma C9_Redirect_commits_again :
  isOk demoRedirected = true ∧
  statusWritten demoRedirectedCtx = true ∧
  (wStatus <$> ResponseWriter demoRedirectedCtx) = Some [302%Z; 302%Z] ∧
  commits demoRedirectedCtx = 2 ∧
  commits demoCtx = 0.
Proof. repeat split. Qed.

(** C10: with a staged status below 300 or above 308, [Redirect] returns
    [ErrInvalidRedirectStatusCode] and leaves the context and its writer
    as they were; a fresh or reset context, whose code is 0, is such a
    context. *)
Theorem C10_Redirect_invalid_status (c : ctx) (urlStr : string) :
  (code c < 300 ∨ code c > 308)%Z →
  Redirect urlStr c = Ok (c, Some ErrInvalidRedirectStatusCode) ∧
  Redirect urlStr (Reset c) = Ok (Reset c, Some ErrInvalidRedirectStatusCode) ∧
  Redirect urlStr newContext = Ok (newContext, Some ErrInvalidRedirectStatusCode) ∧
  (∀ n, (n < 300 ∨ n > 308)%Z →
     Redirect urlStr (WithStatus n c) = Ok (WithStatus n c, Some ErrInvalidRedirectStatusCode)).
Proof.
  intros Hc.
  assert (Hgen : ∀ d, (code d < 300 ∨ code d > 308)%Z →
                      Redirect urlStr d = Ok (d, Some ErrInvalidRedirectStatusCode)).
  { intros d Hd. unfold Redirect.
    destruct (code d <? 300)%Z eqn:E1; [reflexivity|].
    destruct (code d >? 308)%Z eqn:E2; [reflexivity|].
    apply Z.ltb_ge in E1. rewrite Z.gtb_ltb in E2. apply Z.ltb_ge in E2. lia. }
  repeat split.
  - apply Hgen, Hc.
  - intros n Hn. apply Hgen. simpl. exact Hn.
Qed.

Lemma C10_Redirect_invalid_status_witness :
  Redirect "/login" (WithStatus 200 demoCtx)
    = Ok (WithStatus 200 demoCtx, Some ErrInvalidRedirectStatusCode) ∧
  Redirect "/login" (Reset (WithStatus 200 demoCtx))
    = Ok (Reset (WithStatus 200 demoCtx), Some ErrInvalidRedirectStatusCode) ∧
  Redirect "/login" newContext = Ok (newContext, Some ErrInvalidRedirectStatusCode) ∧
  (∀ n, (n < 300 ∨ n > 308)%Z →
     Redirect "/login" (WithStatus n (WithStatus 200 demoCtx))
       = Ok (WithStatus n (WithStatus 200 demoCtx), Some ErrInvalidRedirectStatusCode)).
Proof.
  apply (C10_Redirect_invalid_status (WithStatus 200 demoCtx) "/login").
  left. simpl. lia.
Defined.

(** With a status from 300 to 308 staged, a writer and a request, the
    redirect is performed: the guard is the only way to the error. *)
Lemma Redirect_staged_3xx (c : ctx) (urlStr : string) (w : responseWriter) (r : request) :
  (300 ≤ code c ≤ 308)%Z → ResponseWriter c = Some w → req c = Some r →
  Redirect urlStr c = Ok (setWriter (http_Redirect urlStr (code c) w) c, None).
Proof.
  intros [Hlo Hhi] Hw Hr. unfold Redirect. rewrite Hw, Hr.
  destruct (code c <? 300)%Z eqn:E1; [apply Z.ltb_lt in E1; lia|].
  destruct (code c >? 308)%Z eqn:E2; [rewrite Z.gtb_ltb in E2; apply Z.ltb_lt in E2; lia|].
  reflexivity.
Qed.

(** * Properties of the router tree *)

(** ** The middleware chain *)

Lemma BuildHandler_app (l1 l2 : Middlewares) (h : Handler) :
  BuildHandler (l1 ++ l2) h = BuildHandler l1 (BuildHandler l2 h).
Proof. unfold BuildHandler. apply foldr_app. Qed.

(** A chain of announcing middlewares leaves the names in list order, then
    hands over to the wrapped handler. *)
Lemma BuildHandler_announce (names : list string) (h : Handler) : ∀ w : World,
  BuildHandler (map announce names) h w = h (w ++ names).
Proof.
  induction names as [|n names IH]; intros w; simpl.
  - rewrite app_nil_r. reflexivity.
  - unfold announce at 1. fold (BuildHandler (map announce names) h).
    rewrite IH, <- app_assoc. reflexivity.
Qed.

(** [buildMiddlewares] wraps with the middlewares in scope, and returns
    exactly when the parent chain reaches a root within the fuel. *)
Lemma buildMiddlewares_scope (rs : list Router) : ∀ fuel a h,
  buildMiddlewares fuel rs a h =
    match scopeMiddlewares fuel rs a with
    | Some mws => Ok (BuildHandler mws h)
    | None => Stuck
    end.
Proof.
  induction fuel as [|fuel IH]; intros a h; simpl; [reflexivity|].
  destruct (rs !! a) as [r|]; [|reflexivity].
  destruct (isRoot a r); simpl; [reflexivity|].
  rewrite IH. destruct (scopeMiddlewares fuel rs (router r)) as [up|]; [|reflexivity].
  rewrite BuildHandler_app. reflexivity.
Qed.

Lemma scope_mono_fuel (rs : list Router) : ∀ fuel fuel' a mws,
  scopeMiddlewares fuel rs a = Some mws → fuel ≤ fuel' →
  scopeMiddlewares fuel' rs a = Some mws.
Proof.
  induction fuel as [|fuel IH]; intros fuel' a mws H Hle; simpl in H; [discriminate|].
  destruct fuel' as [|fuel']; [lia|]. simpl.
  destruct (rs !! a) as [r|]; [|discriminate].
  destruct (isRoot a r); [exact H|].
  destruct (scopeMiddlewares fuel rs (router r)) as [up|] eqn:Hup; [|discriminate].
  rewrite (IH fuel' _ _ Hup); [exact H|lia].
Qed.

Lemma scope_mono_app (rs more : list Router) : ∀ fuel a mws,
  scopeMiddlewares fuel rs a = Some mws →
  scopeMiddlewares fuel (rs ++ more) a = Some mws.
Proof.
  induction fuel as [|fuel IH]; intros a mws H; simpl in H; [discriminate|]. simpl.
  destruct (rs !! a) as [r|] eqn:Hr; [|discriminate].
  rewrite (lookup_app_l_Some _ _ _ _ Hr).
  destruct (isRoot a r); [exact H|].
  destruct (scopeMiddlewares fuel rs (router r)) as [up|] eqn:Hup; [|discriminate].
  rewrite (IH _ _ Hup). exact H.
Qed.

Lemma lookup_snoc_new (rs : list Router) (x : Router) : (rs ++ [x]) !! length rs = Some x.
Proof. rewrite lookup_app_r by lia. rewrite Nat.sub_diag. reflexivity. Qed.

Lemma insert_snoc_new (rs : list Router) (x y : Router) :
  <[length rs := y]> (rs ++ [x]) = rs ++ [y].
Proof. rewrite insert_app_r_alt by lia. rewrite Nat.sub_diag. reflexivity. Qed.

Lemma scope_snoc_root (rs : list Router) (x : Router) (fuel : nat) :
  router x = length rs →
  scopeMiddlewares (S fuel) (rs ++ [x]) (length rs) = Some (middlewares x).
Proof.
  intros Hx. simpl. rewrite lookup_snoc_new. unfold isRoot.
  rewrite Hx, Nat.eqb_refl. reflexivity.
Qed.

Lemma scope_snoc_child (rs : list Router) (x : Router) (fuel : nat) (up : Middlewares) :
  router x ≠ length rs →
  scopeMiddlewares fuel (rs ++ [x]) (router x) = Some up →
  scopeMiddlewares (S fuel) (rs ++ [x]) (length rs) = Some (up ++ middlewares x).
Proof.
  intros Hx Hup. simpl. rewrite lookup_snoc_new. unfold isRoot.
  apply Nat.eqb_neq in Hx. rewrite Hx, Hup. reflexivity.
Qed.

(** Replacing a node by one with the same parent and middlewares changes
    no scope. *)
Lemma scope_insert (rs : list Router) (i : addr) (r r' : Router) :
  rs !! i = Some r → router r' = router r → middlewares r' = middlewares r →
  ∀ fuel a, scopeMiddlewares fuel (<[i := r']> rs) a = scopeMiddlewares fuel rs a.
Proof.
  intros Hi Hp Hm. induction fuel as [|fuel IH]; intros a; simpl; [reflexivity|].
  destruct (decide (i = a)) as [->|Hne].
  - rewrite list_lookup_insert_eq by (eapply lookup_lt_Some; eauto).
    rewrite Hi. unfold isRoot. rewrite Hp, Hm, IH. reflexivity.
  - rewrite list_lookup_insert_ne by exact Hne.
    destruct (rs !! a) as [q|]; [|reflexivity].
    rewrite IH. reflexivity.
Qed.

(** ** Well-formed stores *)

Lemma wf_from_lookup (nm : nat) : ∀ rs off i r,
  wf_from nm off rs = true → rs !! i = Some r →
  router r ≤ off + i ∧ rm r < nm.
Proof.
  induction rs as [|x rs IH]; intros off i r Hwf Hi; [discriminate|].
  simpl in Hwf. apply andb_prop in Hwf as [Hx Hrest]. apply andb_prop in Hx as [Hx1 Hx2].
  destruct i as [|i]; simpl in Hi.
  - inversion Hi; subst. apply Nat.leb_le in Hx1. apply Nat.ltb_lt in Hx2. lia.
  - destruct (IH _ _ _ Hrest Hi). lia.
Qed.

Lemma wf_lookup (s : store) (a : addr) (r : Router) :
  wf s → routers s !! a = Some r → router r ≤ a ∧ rm r < length (matchers s).
Proof. intros Hwf Hr. apply (wf_from_lookup _ _ 0 a r Hwf Hr). Qed.

(** In a well-formed store every node has a scope: the walk to the root
    ends, and the number of nodes is fuel enough. *)
Lemma scope_exists (s : store) : wf s →
  ∀ fuel a, a < fuel → a < length (routers s) →
  is_Some (scopeMiddlewares fuel (routers s) a).
Proof.
  intros Hwf. induction fuel as [|fuel IH]; intros a Hf Ha; [lia|]. simpl.
  destruct (lookup_lt_is_Some_2 _ _ Ha) as [r Hr]. rewrite Hr.
  destruct (isRoot a r) eqn:Hroot; [eauto|].
  destruct (wf_lookup _ _ _ Hwf Hr) as [Hle _].
  unfold isRoot in Hroot. apply Nat.eqb_neq in Hroot.
  destruct (IH (router r)) as [up Hup]; [lia|lia|]. rewrite Hup. eauto.
Qed.

Lemma scope_routers (s : store) (a : addr) :
  wf s → a < length (routers s) →
  ∃ mws, scopeMiddlewares (length (routers s)) (routers s) a = Some mws.
Proof. intros Hwf Ha. apply (scope_exists s Hwf); assumption. Qed.

(** ** What the setup calls return *)

Lemma New_ok (mws : Middlewares) (s : store) :
  New mws s = Ok (length (routers s),
                  mkStore (routers s ++ [mkRouter (length (matchers s)) (length (routers s))
                                                  mws "" None [] ∅])
                          (matchers s ++ [[]])).
Proof.
  unfold New, Use, getRouter, setRouter; simpl.
  rewrite lookup_snoc_new; simpl.
  rewrite insert_snoc_new. reflexivity.
Qed.

Lemma Group_ok (a : addr) (pat : string) (mws : Middlewares) (s : store) (r : Router) :
  routers s !! a = Some r →
  validatePattern (groupPattern (pattern r) pat) = Ok tt →
  Group a pat mws s =
    Ok (length (routers s),
        mkStore (routers s ++ [mkRouter (rm r) a mws
                                 (groupPattern (pattern r) pat)
                                 None [] ∅])
                (matchers s)).
Proof.
  intros Hr Hv. unfold Group, getRouter. rewrite Hr; simpl. rewrite Hv; simpl.
  unfold Use, getRouter, setRouter; simpl.
  rewrite lookup_snoc_new; simpl.
  rewrite insert_snoc_new. reflexivity.
Qed.

(** [Group] panics exactly when the resolved pattern fails validation. *)
Lemma Group_panic (a : addr) (pat : string) (mws : Middlewares) (s : store) (r : Router)
    (msg : string) :
  routers s !! a = Some r →
  validatePattern (groupPattern (pattern r) pat) = Panic msg →
  Group a pat mws s = Panic msg.
Proof. intros Hr Hv. unfold Group, getRouter. rewrite Hr; simpl. rewrite Hv. reflexivity. Qed.

(** [Handle] on a node that is not a root. *)
Lemma Handle_child (s : store) (a : addr) (r up : Router) (calls : pathMatcher)
    (mws : Middlewares) (method pat : string) (h : Handler) :
  routers s !! a = Some r → router r ≠ a →
  routers s !! router r = Some up →
  matchers s !! rm up = Some calls →
  scopeMiddlewares (length (routers s)) (routers s) a = Some mws →
  validatePattern pat = Ok tt →
  prevalidation method (handlePattern false (pattern r) pat) = Ok tt →
  Handle a method pat h s =
    Ok (tt,
        mkStore
          (<[a := mkRouter (rm r) (router r) (middlewares r) (pattern r) (notFoundHandler r)
                    (registeredHandlers r ++ [mkRegistered method pat (BuildHandler mws h)])
                    (namedMiddlewares r)]> (routers s))
          (<[rm up := calls ++ [mkSet (handlePattern false (pattern r) pat)
                                      (BuildHandler mws h) [method]]]> (matchers s))).
Proof.
  intros Hr Hne Hup Hcalls Hscope Hv Hpre.
  unfold Handle. rewrite Hv; simpl. unfold getRouter at 1. rewrite Hr; simpl.
  rewrite buildMiddlewares_scope, Hscope; simpl.
  unfold getRouter, setRouter; simpl.
  rewrite list_lookup_insert_ne by (intros E; apply Hne; symmetry; exact E).
  rewrite Hup; simpl.
  unfold isRoot. apply Nat.eqb_neq in Hne. rewrite Hne; simpl.
  unfold Register. rewrite Hpre; simpl. cbn [matchers routers]. rewrite Hcalls. reflexivity.
Qed.

(** ** Mounting *)

Lemma isOk_unit (r : result unit) : isOk r = true → r = Ok tt.
Proof. destruct r as [[]| |]; simpl; intros H; [reflexivity|discriminate|discriminate]. Qed.

(** The loop of [Mount]: every entry is registered under the group, with
    the handler it carries wrapped by the middlewares in scope there. *)
Lemma replay_ok (sub : addr) (up : Router) (mws : Middlewares) :
  ∀ (rhs : list registeredHandler) (s : store) (rsub : Router) (calls : list setCall),
  routers s !! sub = Some rsub → router rsub ≠ sub →
  routers s !! router rsub = Some up →
  matchers s !! rm up = Some calls →
  scopeMiddlewares (length (routers s)) (routers s) sub = Some mws →
  forallb (replayable (pattern rsub)) rhs = true →
  replay sub rhs s =
    Ok (tt,
        mkStore
          (<[sub := mkRouter (rm rsub) (router rsub) (middlewares rsub) (pattern rsub)
                      (notFoundHandler rsub)
                      (registeredHandlers rsub ++
                         map (fun rh => mkRegistered (rh_method rh) (rh_pattern rh)
                                          (BuildHandler mws (rh_handler rh))) rhs)
                      (namedMiddlewares rsub)]> (routers s))
          (<[rm up := calls ++
                        map (fun rh => mkSet (handlePattern false (pattern rsub) (rh_pattern rh))
                                         (BuildHandler mws (rh_handler rh)) [rh_method rh]) rhs]>
             (matchers s))).
Proof.
  induction rhs as [|rh rhs IH]; intros s rsub calls Hsub Hne Hup Hcalls Hscope Hall.
  - simpl. rewrite !app_nil_r. destruct rsub; simpl.
    rewrite (list_insert_id _ _ _ Hsub), (list_insert_id _ _ _ Hcalls).
    destruct s; reflexivity.
  - simpl in Hall. apply andb_prop in Hall as [Hrh Hall].
    unfold replayable in Hrh. apply andb_prop in Hrh as [Hv Hp].
    apply isOk_unit in Hv. apply isOk_unit in Hp.
    cbn [replay].
    rewrite (Handle_child s sub rsub up calls mws _ _ _ Hsub Hne Hup Hcalls Hscope Hv Hp).
    cbn [rbind].
    assert (Hlt : sub < length (routers s)) by (eapply lookup_lt_Some; eauto).
    assert (Hmlt : rm up < length (matchers s)) by (eapply lookup_lt_Some; eauto).
    set (rsub1 := mkRouter (rm rsub) (router rsub) (middlewares rsub) (pattern rsub)
                    (notFoundHandler rsub)
                    (registeredHandlers rsub ++
                       [mkRegistered (rh_method rh) (rh_pattern rh)
                          (BuildHandler mws (rh_handler rh))])
                    (namedMiddlewares rsub)).
    set (call1 := mkSet (handlePattern false (pattern rsub) (rh_pattern rh))
                    (BuildHandler mws (rh_handler rh)) [rh_method rh]).
    set (s1 := mkStore (<[sub := rsub1]> (routers s)) (<[rm up := calls ++ [call1]]> (matchers s))).
    assert (H1 : routers s1 !! sub = Some rsub1)
      by (apply list_lookup_insert_eq; exact Hlt).
    assert (H2 : routers s1 !! router rsub1 = Some up).
    { unfold s1; cbn [routers router rsub1].
      rewrite list_lookup_insert_ne by (intros E; apply Hne; symmetry; exact E). exact Hup. }
    assert (H3 : matchers s1 !! rm up = Some (calls ++ [call1]))
      by (apply list_lookup_insert_eq; exact Hmlt).
    assert (H4 : scopeMiddlewares (length (routers s1)) (routers s1) sub = Some mws).
    { unfold s1; cbn [routers]. rewrite length_insert.
      rewrite (scope_insert _ _ rsub rsub1 Hsub eq_refl eq_refl). exact Hscope. }
    rewrite (IH s1 rsub1 (calls ++ [call1]) H1 Hne H2 H3 H4 Hall).
    unfold s1; cbn [routers matchers rm router middlewares pattern notFoundHandler
                     registeredHandlers namedMiddlewares rsub1].
    rewrite (list_insert_insert_eq (routers s)), (list_insert_insert_eq (matchers s)).
    cbn [map]. rewrite <- (app_assoc (registeredHandlers rsub)), <- (app_assoc calls).
    reflexivity.
Qed.

Lemma validatePattern_returns (p : string) :
  validatePattern p = Ok tt ∨ ∃ msg, validatePattern p = Panic msg.
Proof. unfold validatePattern. destruct (_ && _); eauto. Qed.

Lemma prevalidation_returns (method p : string) :
  prevalidation method p = Ok tt ∨ ∃ msg, prevalidation method p = Panic msg.
Proof. unfold prevalidation. destruct (_ || _); [eauto|]. destruct (negb _); eauto. Qed.

(** [Handle] on a node that is not a root panics when one of its two
    validations refuses the entry. *)
Lemma Handle_child_panic (s : store) (a : addr) (r up : Router) (mws : Middlewares)
    (rh : registeredHandler) :
  routers s !! a = Some r → router r ≠ a →
  routers s !! router r = Some up →
  scopeMiddlewares (length (routers s)) (routers s) a = Some mws →
  replayable (pattern r) rh = false →
  ∃ msg, Handle a (rh_method rh) (rh_pattern rh) (rh_handler rh) s = Panic msg.
Proof.
  intros Hr Hne Hup Hscope Hrep. unfold Handle.
  destruct (validatePattern_returns (rh_pattern rh)) as [Hv|[msg Hv]]; rewrite Hv;
    cbn [rbind]; [|eauto].
  unfold replayable in Hrep. rewrite Hv in Hrep. cbn [isOk andb] in Hrep.
  destruct (prevalidation_returns (rh_method rh)
              (handlePattern false (pattern r) (rh_pattern rh))) as [Hp|[msg Hp]];
    [rewrite Hp in Hrep; discriminate|].
  exists msg. unfold getRouter at 1. rewrite Hr. cbn [rbind].
  rewrite buildMiddlewares_scope, Hscope. cbn [rbind].
  unfold getRouter, setRouter; cbn [routers].
  rewrite list_lookup_insert_ne by (intros E; apply Hne; symmetry; exact E).
  rewrite Hup. cbn [rbind].
  unfold isRoot. apply Nat.eqb_neq in Hne. rewrite Hne. cbn [negb].
  unfold Register. rewrite Hp. reflexivity.
Qed.

(** The loop of [Mount] panics at the first entry a validation refuses. *)
Lemma replay_panics (sub : addr) (up : Router) (mws : Middlewares) :
  ∀ (rhs : list registeredHandler) (s : store) (rsub : Router) (calls : list setCall),
  routers s !! sub = Some rsub → router rsub ≠ sub →
  routers s !! router rsub = Some up →
  matchers s !! rm up = Some calls →
  scopeMiddlewares (length (routers s)) (routers s) sub = Some mws →
  forallb (replayable (pattern rsub)) rhs = false →
  ∃ msg, replay sub rhs s = Panic msg.
Proof.
  induction rhs as [|rh rhs IH]; intros s rsub calls Hsub Hne Hup Hcalls Hscope Hall;
    [discriminate|].
  cbn [forallb] in Hall. cbn [replay].
  destruct (replayable (pattern rsub) rh) eqn:Hrh.
  - cbn [andb] in Hall. pose proof Hrh as Hrh'.
    unfold replayable in Hrh'. apply andb_prop in Hrh' as [Hv Hp].
    apply isOk_unit in Hv. apply isOk_unit in Hp.
    rewrite (Handle_child s sub rsub up calls mws _ _ _ Hsub Hne Hup Hcalls Hscope Hv Hp).
    cbn [rbind].
    assert (Hlt : sub < length (routers s)) by (eapply lookup_lt_Some; eauto).
    assert (Hmlt : rm up < length (matchers s)) by (eapply lookup_lt_Some; eauto).
    set (rsub1 := mkRouter (rm rsub) (router rsub) (middlewares rsub) (pattern rsub)
                    (notFoundHandler rsub)
                    (registeredHandlers rsub ++
                       [mkRegistered (rh_method rh) (rh_pattern rh)
                          (BuildHandler mws (rh_handler rh))])
                    (namedMiddlewares rsub)).
    set (call1 := mkSet (handlePattern false (pattern rsub) (rh_pattern rh))
                    (BuildHandler mws (rh_handler rh)) [rh_method rh]).
    set (s1 := mkStore (<[sub := rsub1]> (routers s))
                       (<[rm up := calls ++ [call1]]> (matchers s))).
    apply (IH s1 rsub1 (calls ++ [call1])).
    + apply list_lookup_insert_eq. exact Hlt.
    + exact Hne.
    + unfold s1; cbn [routers router rsub1].
      rewrite list_lookup_insert_ne by (intros E; apply Hne; symmetry; exact E). exact Hup.
    + apply list_lookup_insert_eq. exact Hmlt.
    + unfold s1; cbn [routers]. rewrite length_insert.
      rewrite (scope_insert _ _ rsub rsub1 Hsub eq_refl eq_refl). exact Hscope.
    + exact Hall.
  - destruct (Handle_child_panic s sub rsub up mws rh Hsub Hne Hup Hscope Hrh) as [msg Hmsg].
    exists msg. rewrite Hmsg. reflexivity.
Qed.

(** C1 (as the code has it): in a well-formed store [Mount] panics when the
    group's resolved pattern fails [validatePattern], and when replaying
    meets an entry that a validation of [Handle] refuses under the group.
    Otherwise it makes a group under the mounting node and replays every
    entry of the mounted router through [Handle], in order, with the entry's
    method and relative pattern.  The handler an entry carries is the
    composed handler the mounted router stored; it is passed on as it is and
    wrapped once more by the middlewares of the mount call, of the mounting
    node and of its ancestors.  The mounted router and every other node stay
    as they were. *)
Theorem C1_Mount_replays_stored_handlers
    (s : store) (a other : addr) (rM rR : Router) (pat : string) (mws : Middlewares) :
  wf s →
  routers s !! a = Some rM →
  routers s !! other = Some rR →
  ∃ (up : Middlewares) (calls : list setCall),
    scopeMiddlewares (length (routers s)) (routers s) a = Some up ∧
    matchers s !! rm rM = Some calls ∧
    (∀ msg, validatePattern (groupPattern (pattern rM) pat) = Panic msg →
       Mount a pat other mws s = Panic msg) ∧
    (validatePattern (groupPattern (pattern rM) pat) = Ok tt →
     forallb (replayable (groupPattern (pattern rM) pat)) (registeredHandlers rR) = false →
       ∃ msg, Mount a pat other mws s = Panic msg) ∧
    (validatePattern (groupPattern (pattern rM) pat) = Ok tt →
     forallb (replayable (groupPattern (pattern rM) pat)) (registeredHandlers rR) = true →
       ∃ s' : store,
         Mount a pat other mws s = Ok (tt, s') ∧
         routers s' =
           routers s ++
             [mkRouter (rm rM) a mws (groupPattern (pattern rM) pat) None
                (map (fun rh => mkRegistered (rh_method rh) (rh_pattern rh)
                                  (BuildHandler (up ++ mws) (rh_handler rh)))
                     (registeredHandlers rR))
                ∅] ∧
         matchers s' =
           <[rm rM := calls ++
                        map (fun rh => mkSet (handlePattern false
                                                (groupPattern (pattern rM) pat)
                                                (rh_pattern rh))
                                         (BuildHandler (up ++ mws) (rh_handler rh))
                                         [rh_method rh])
                            (registeredHandlers rR)]> (matchers s)).
Proof.
  intros Hwf HM HR.
  assert (Ha : a < length (routers s)) by (eapply lookup_lt_Some; eauto).
  destruct (scope_routers s a Hwf Ha) as [up Hup].
  destruct (wf_lookup s a rM Hwf HM) as [_ Hrm].
  destruct (lookup_lt_is_Some_2 _ _ Hrm) as [calls Hcalls].
  exists up, calls. split; [exact Hup|]. split; [exact Hcalls|].
  set (nr := mkRouter (rm rM) a mws (groupPattern (pattern rM) pat) None [] ∅).
  assert (Hnew : (routers s ++ [nr]) !! length (routers s) = Some nr)
    by apply lookup_snoc_new.
  assert (Hne : router nr ≠ length (routers s)) by (simpl; lia).
  assert (Hpar : (routers s ++ [nr]) !! router nr = Some rM)
    by (simpl; apply lookup_app_l_Some; exact HM).
  assert (Hsc : scopeMiddlewares (length (routers s ++ [nr])) (routers s ++ [nr])
                  (length (routers s)) = Some (up ++ mws)).
  { rewrite length_app, Nat.add_1_r.
    apply (scope_snoc_child (routers s) nr (length (routers s)) up).
    - exact Hne.
    - simpl. apply scope_mono_app. exact Hup. }
  split; [|split].
  - intros msg Hv. unfold Mount. rewrite (Group_panic a pat mws s rM msg HM Hv). reflexivity.
  - intros Hv Hall. unfold Mount. rewrite (Group_ok a pat mws s rM HM Hv). cbn [rbind].
    unfold getRouter. cbn [routers].
    rewrite (lookup_app_l_Some _ _ _ _ HR). cbn [rbind].
    apply (replay_panics (length (routers s)) rM (up ++ mws) (registeredHandlers rR)
             (mkStore (routers s ++ [nr]) (matchers s)) nr calls Hnew Hne Hpar Hcalls Hsc Hall).
  - intros Hv Hall. eexists.
    unfold Mount. rewrite (Group_ok a pat mws s rM HM Hv). cbn [rbind]. fold nr.
    unfold getRouter. cbn [routers].
    rewrite (lookup_app_l_Some _ _ _ _ HR). cbn [rbind].
    rewrite (replay_ok (length (routers s)) rM (up ++ mws) (registeredHandlers rR)
               (mkStore (routers s ++ [nr]) (matchers s)) nr calls
               Hnew Hne Hpar Hcalls Hsc Hall).
    cbn [routers matchers rm router middlewares pattern notFoundHandler
           registeredHandlers namedMiddlewares nr app].
    rewrite insert_snoc_new. split; [reflexivity|]. split; reflexivity.
Qed.

Lemma C1_Mount_replays_stored_handlers_witness :
  ∃ (up : Middlewares) (calls : list setCall) (s' : store),
    scopeMiddlewares (length (routers mountScene)) (routers mountScene) 1 = Some up ∧
    matchers mountScene !! 1 = Some calls ∧
    Mount 1 "/m" 0 [announce "sub"] mountScene = Ok (tt, s') ∧
    routers s' =
      routers mountScene ++
        [mkRouter 1 1 [announce "sub"] "/m" None
           (map (fun rh => mkRegistered (rh_method rh) (rh_pattern rh)
                             (BuildHandler (up ++ [announce "sub"]) (rh_handler rh)))
                [mkRegistered "GET" "/x" (BuildHandler [announce "R"] (terminal "H"))])
           ∅] ∧
    matchers s' =
      <[1 := calls ++
               map (fun rh => mkSet (handlePattern false "/m" (rh_pattern rh))
                                (BuildHandler (up ++ [announce "sub"]) (rh_handler rh))
                                [rh_method rh])
                   [mkRegistered "GET" "/x" (BuildHandler [announce "R"] (terminal "H"))]]>
        (matchers mountScene).
Proof.
  destruct (C1_Mount_replays_stored_handlers mountScene 1 0
              (mkRouter 1 1 [announce "M"] "" None [] ∅)
              (mkRouter 0 0 [announce "R"] "" None
                 [mkRegistered "GET" "/x" (BuildHandler [announce "R"] (terminal "H"))] ∅)
              "/m" [announce "sub"])
    as (up & calls & Hup & Hcalls & _ & _ & Hok).
  - vm_compute. reflexivity.
  - reflexivity.
  - reflexivity.
  - destruct (Hok eq_refl eq_refl) as (s' & Hrun & Hrs & Hms).
    exists up, calls, s'. repeat split; assumption.
Defined.

(** Mounting at "/" under a root resolves the group to the empty pattern;
    an entry of the mounted router for "/" then resolves to the empty
    pattern too, which the matcher's prevalidation refuses. *)
Lemma Mount_slash_route_panics :
  Mount 1 "/" 0 [] mountSlashScene = Panic "path must begin with '/' in path ''".
Proof. reflexivity. Qed.

(** C1 fails as worded: R has middleware "R" and the route GET /x with
    terminal handler "H"; M has middleware "M".  After M mounts R at /m the
    handler registered under /m/x runs M, then R's own middleware, then H:
    the handler R composed was reused.  Re-deriving the composition of the
    terminal handler at the new position would give M, then H. *)
Lemma C1_Mount_reuses_composed_handler :
  Mount 1 "/m" 0 [] mountScene = Ok (tt, mountSceneAfter) ∧
  registeredEffects mountScene 0 = [("/x", ["GET"], ["R"; "H"])] ∧
  registeredEffects mountSceneAfter 1 = [("/m/x", ["GET"], ["M"; "R"; "H"])] ∧
  effectsOf (buildMiddlewares (length (routers mountSceneAfter)) (routers mountSceneAfter)
               2 (terminal "H")) = Some ["M"; "H"] ∧
  registeredEffects mountSceneAfter 1 ≠ [("/m/x", ["GET"], ["M"; "H"])].
Proof.
  split; [reflexivity|]. split; [reflexivity|]. split; [reflexivity|].
  split; [reflexivity|]. vm_compute. discriminate.
Qed.

(** ** Order of execution *)

(** C2: in a well-formed store [buildMiddlewares] returns the handler
    wrapped by the middlewares in scope at the node: those of the parent's
    scope first (so every ancestor's before any descendant's), then the
    node's own in registration order, the handler innermost.  When the
    middlewares announce themselves, the names appear in that order before
    the handler runs; with M1 on the root and M2 on a group the order is
    M1, M2, H. *)
Theorem C2_buildMiddlewares_order (s : store) (a : addr) (r : Router) (H : Handler) :
  wf s →
  routers s !! a = Some r →
  ∃ mws : Middlewares,
    scopeMiddlewares (length (routers s)) (routers s) a = Some mws ∧
    buildMiddlewares (length (routers s)) (routers s) a H = Ok (BuildHandler mws H) ∧
    (if isRoot a r then mws = middlewares r
     else ∃ up, scopeMiddlewares (length (routers s)) (routers s) (router r) = Some up ∧
                mws = up ++ middlewares r) ∧
    (∀ (names : list string) (w : World),
       mws = map announce names → BuildHandler mws H w = H (w ++ names)) ∧
    effectsOf (buildMiddlewares (length (routers orderScene)) (routers orderScene) 1
                 (terminal "H")) = Some ["M1"; "M2"; "H"].
Proof.
  intros Hwf Hr.
  assert (Ha : a < length (routers s)) by (eapply lookup_lt_Some; eauto).
  destruct (scope_routers s a Hwf Ha) as [mws Hmws].
  exists mws. split; [exact Hmws|]. split; [|split; [|split]].
  - rewrite buildMiddlewares_scope, Hmws. reflexivity.
  - destruct (length (routers s)) as [|n] eqn:Hn; [lia|].
    simpl in Hmws. rewrite Hr in Hmws.
    destruct (isRoot a r); [congruence|].
    destruct (scopeMiddlewares n (routers s) (router r)) as [up|] eqn:Hup; [|discriminate].
    exists up. split; [|congruence].
    apply (scope_mono_fuel _ n); [exact Hup|lia].
  - intros names w ->. apply BuildHandler_announce.
  - reflexivity.
Qed.

Lemma C2_buildMiddlewares_order_witness :
  ∃ mws : Middlewares,
    scopeMiddlewares (length (routers orderScene)) (routers orderScene) 1 = Some mws ∧
    buildMiddlewares (length (routers orderScene)) (routers orderScene) 1 (terminal "H")
      = Ok (BuildHandler mws (terminal "H")) ∧
    (if isRoot 1 (mkRouter 0 0 [announce "M2"] "/child" None [] ∅)
     then mws = [announce "M2"]
     else ∃ up, scopeMiddlewares (length (routers orderScene)) (routers orderScene) 0 = Some up ∧
                mws = up ++ [announce "M2"]) ∧
    (∀ (names : list string) (w : World),
       mws = map announce names →
       BuildHandler mws (terminal "H") w = terminal "H" (w ++ names)) ∧
    effectsOf (buildMiddlewares (length (routers orderScene)) (routers orderScene) 1
                 (terminal "H")) = Some ["M1"; "M2"; "H"].
Proof.
  apply (C2_buildMiddlewares_order orderScene 1
           (mkRouter 0 0 [announce "M2"] "/child" None [] ∅) (terminal "H")).
  - vm_compute. reflexivity.
  - reflexivity.
Defined.

(** ** Patterns of groups and routes *)

Lemma groupPattern_slash (own : string) : own ≠ "/" → groupPattern own "/" = own.
Proof.
  intros Hne. unfold groupPattern. simpl.
  apply String.eqb_neq in Hne. rewrite Hne. reflexivity.
Qed.

Lemma groupPattern_concat (own pat : string) :
  pat ≠ "/" ∨ own = "/" → groupPattern own pat = own +:+ pat.
Proof.
  intros [Hne| ->]; unfold groupPattern.
  - apply String.eqb_neq in Hne. rewrite Hne. reflexivity.
  - rewrite andb_false_r. reflexivity.
Qed.

(** C3 (as the code has it): the child's pattern is the parent's pattern
    followed by the segment, except that for the segment "/" under a parent
    whose pattern is not "/" -- the root, whose pattern is empty, included --
    it is the parent's pattern unchanged; "/" under "/a" gives "/a".  The
    group is made when that pattern passes validation, and the call panics
    otherwise. *)
Theorem C3_Group_resolves_pattern
    (s : store) (a : addr) (r : Router) (pat : string) (mws : Middlewares) :
  routers s !! a = Some r →
  (pat = "/" → pattern r ≠ "/" → groupPattern (pattern r) pat = pattern r) ∧
  (pat ≠ "/" ∨ pattern r = "/" → groupPattern (pattern r) pat = pattern r +:+ pat) ∧
  groupPattern "/a" "/" = "/a" ∧
  (validatePattern (groupPattern (pattern r) pat) = Ok tt →
     childPattern (Group a pat mws s) = Some (groupPattern (pattern r) pat)) ∧
  (∀ msg, validatePattern (groupPattern (pattern r) pat) = Panic msg →
     Group a pat mws s = Panic msg).
Proof.
  intros Hr. split; [|split; [|split; [|split]]].
  - intros -> Hne. apply groupPattern_slash, Hne.
  - apply groupPattern_concat.
  - reflexivity.
  - intros Hv. rewrite (Group_ok a pat mws s r Hr Hv). unfold childPattern. cbn [routers].
    rewrite lookup_snoc_new. reflexivity.
  - intros msg Hv. apply (Group_panic a pat mws s r msg Hr Hv).
Qed.

Lemma C3_Group_resolves_pattern_witness :
  ("/" = "/" → "/a" ≠ "/" → groupPattern "/a" "/" = "/a") ∧
  ("/" ≠ "/" ∨ "/a" = "/" → groupPattern "/a" "/" = "/a" +:+ "/") ∧
  groupPattern "/a" "/" = "/a" ∧
  (validatePattern (groupPattern "/a" "/") = Ok tt →
     childPattern (Group 1 "/" [] slashScene) = Some (groupPattern "/a" "/")) ∧
  (∀ msg, validatePattern (groupPattern "/a" "/") = Panic msg →
     Group 1 "/" [] slashScene = Panic msg).
Proof.
  apply (C3_Group_resolves_pattern slashScene 1 (mkRouter 0 0 [] "/a" None [] ∅) "/" []).
  reflexivity.
Defined.

(** C3 fails as worded at the root: grouping "/" under the root, whose
    pattern is empty, gives a child with the empty pattern, where the
    worded rule (the exception does not apply under the root) gives "/". *)
Lemma C3_Group_slash_under_root :
  (isRoot 0 <$> routers slashScene !! 0) = Some true ∧
  (pattern <$> routers slashScene !! 0) = Some "" ∧
  childPattern (Group 0 "/" [] slashScene) = Some "" ∧
  spec_groupPattern true "" "/" = "/" ∧
  childPattern (Group 0 "/" [] slashScene) ≠ Some (spec_groupPattern true "" "/").
Proof. repeat split. vm_compute. discriminate. Qed.

(** C4: a root, groups at "/a", "/b" and "/c" nested under it, and a route
    "/d" on the innermost group: the tree's matcher receives the route
    under "/a/b/c/d", with the handler wrapped by the middlewares of the
    four nodes, outermost first. *)
Theorem C4_nested_groups_absolute_path
    (s : store) (mws0 mwsA mwsB mwsC : Middlewares) (method : string) (h : Handler) :
  isInStringSlice allowedHTTPMethods method = true →
  ∃ s' : store,
    (do '(g1, s1) <- New mws0 s;
     do '(g2, s2) <- Group g1 "/a" mwsA s1;
     do '(g3, s3) <- Group g2 "/b" mwsB s2;
     do '(g4, s4) <- Group g3 "/c" mwsC s3;
     Handle g4 method "/d" h s4) = Ok (tt, s') ∧
    matchers s' =
      matchers s ++
        [[mkSet "/a/b/c/d" (BuildHandler (mws0 ++ mwsA ++ mwsB ++ mwsC) h) [method]]] ∧
    (pattern <$> routers s' !! (length (routers s) + 3)) = Some "/a/b/c" ∧
    (rm <$> routers s' !! (length (routers s) + 3)) = Some (length (matchers s)) ∧
    length (routers s') = length (routers s) + 4.
Proof.
  intros Hm.
  pose (r0 := mkRouter (length (matchers s)) (length (routers s)) mws0 "" None [] ∅).
  pose (s1 := mkStore (routers s ++ [r0]) (matchers s ++ [[]])).
  pose (rA := mkRouter (rm r0) (length (routers s)) mwsA "/a" None [] ∅).
  pose (s2 := mkStore (routers s1 ++ [rA]) (matchers s1)).
  pose (rB := mkRouter (rm rA) (length (routers s1)) mwsB "/a/b" None [] ∅).
  pose (s3 := mkStore (routers s2 ++ [rB]) (matchers s2)).
  pose (rC := mkRouter (rm rB) (length (routers s2)) mwsC "/a/b/c" None [] ∅).
  pose (s4 := mkStore (routers s3 ++ [rC]) (matchers s3)).
  pose (built := BuildHandler (((mws0 ++ mwsA) ++ mwsB) ++ mwsC) h).
  assert (H0 : routers s1 !! length (routers s) = Some r0) by apply lookup_snoc_new.
  assert (HA : routers s2 !! length (routers s1) = Some rA) by apply lookup_snoc_new.
  assert (HB : routers s3 !! length (routers s2) = Some rB) by apply lookup_snoc_new.
  assert (HC : routers s4 !! length (routers s3) = Some rC) by apply lookup_snoc_new.
  assert (L1 : length (routers s1) = S (length (routers s)))
    by (unfold s1; cbn [routers]; rewrite length_app; simpl; lia).
  assert (L2 : length (routers s2) = S (length (routers s1)))
    by (unfold s2; cbn [routers]; rewrite length_app; simpl; lia).
  assert (L3 : length (routers s3) = S (length (routers s2)))
    by (unfold s3; cbn [routers]; rewrite length_app; simpl; lia).
  assert (L4 : length (routers s4) = S (length (routers s3)))
    by (unfold s4; cbn [routers]; rewrite length_app; simpl; lia).
  assert (S0 : scopeMiddlewares (S (length (routers s))) (routers s1) (length (routers s))
               = Some mws0) by (apply (scope_snoc_root (routers s) r0); reflexivity).
  assert (SA : scopeMiddlewares (S (length (routers s1))) (routers s2) (length (routers s1))
               = Some (mws0 ++ mwsA)).
  { apply (scope_snoc_child (routers s1) rA (length (routers s1)) mws0).
    - unfold rA; cbn [router]. lia.
    - apply scope_mono_app. rewrite L1. exact S0. }
  assert (SB : scopeMiddlewares (S (length (routers s2))) (routers s3) (length (routers s2))
               = Some ((mws0 ++ mwsA) ++ mwsB)).
  { apply (scope_snoc_child (routers s2) rB (length (routers s2)) (mws0 ++ mwsA)).
    - unfold rB; cbn [router]. lia.
    - apply scope_mono_app. rewrite L2. exact SA. }
  assert (SC : scopeMiddlewares (length (routers s4)) (routers s4) (length (routers s3))
               = Some (((mws0 ++ mwsA) ++ mwsB) ++ mwsC)).
  { rewrite L4.
    apply (scope_snoc_child (routers s3) rC (length (routers s3)) ((mws0 ++ mwsA) ++ mwsB)).
    - unfold rC; cbn [router]. lia.
    - apply scope_mono_app. rewrite L3. exact SB. }
  assert (Hup : routers s4 !! router rC = Some rB).
  { unfold s4 at 1. cbn [routers]. apply lookup_app_l_Some. exact HB. }
  assert (Hcalls : matchers s4 !! rm rB = Some []).
  { unfold s4, s3, s2, s1. cbn [matchers rm rB rA r0].
    rewrite lookup_app_r by lia. rewrite Nat.sub_diag. reflexivity. }
  assert (Hpre : prevalidation method (handlePattern false (pattern rC) "/d") = Ok tt).
  { unfold prevalidation. rewrite Hm. reflexivity. }
  assert (HneC : router rC ≠ length (routers s3)) by (unfold rC; cbn [router]; lia).
  assert (Hrun :
    (do '(g1, t1) <- New mws0 s;
     do '(g2, t2) <- Group g1 "/a" mwsA t1;
     do '(g3, t3) <- Group g2 "/b" mwsB t2;
     do '(g4, t4) <- Group g3 "/c" mwsC t3;
     Handle g4 method "/d" h t4) =
    Ok (tt, mkStore
              (<[length (routers s3) :=
                   mkRouter (rm rC) (router rC) (middlewares rC) (pattern rC)
                     (notFoundHandler rC)
                     (registeredHandlers rC ++ [mkRegistered method "/d" built])
                     (namedMiddlewares rC)]> (routers s4))
              (<[rm rB := [] ++ [mkSet "/a/b/c/d" built [method]]]> (matchers s4)))).
  { rewrite New_ok. cbn [rbind]. fold r0. fold s1.
    rewrite (Group_ok _ "/a" mwsA s1 r0 H0 eq_refl). cbn [rbind].
    change (groupPattern (pattern r0) "/a") with "/a". fold rA. fold s2.
    rewrite (Group_ok _ "/b" mwsB s2 rA HA eq_refl). cbn [rbind].
    change (groupPattern (pattern rA) "/b") with "/a/b". fold rB. fold s3.
    rewrite (Group_ok _ "/c" mwsC s3 rB HB eq_refl). cbn [rbind].
    change (groupPattern (pattern rB) "/c") with "/a/b/c". fold rC. fold s4.
    apply (Handle_child s4 (length (routers s3)) rC rB [] _ method "/d" h
             HC HneC Hup Hcalls SC eq_refl Hpre). }
  eexists. split; [exact Hrun|]. cbn [matchers routers].
  split; [|split; [|split]].
  - unfold s4, s3, s2, s1. cbn [matchers rm rB rA r0].
    rewrite <- (Nat.add_0_r (length (matchers s))) at 1.
    rewrite insert_app_r. unfold built. cbn [app insert list_insert].
    rewrite <- !(app_assoc mws0), <- (app_assoc mwsA). reflexivity.
  - replace (length (routers s) + 3) with (length (routers s3)) by lia.
    rewrite list_lookup_insert_eq by lia. reflexivity.
  - replace (length (routers s) + 3) with (length (routers s3)) by lia.
    rewrite list_lookup_insert_eq by lia. reflexivity.
  - rewrite length_insert. lia.
Qed.

Lemma C4_nested_groups_absolute_path_witness :
  ∃ s' : store,
    (do '(g1, s1) <- New [announce "root"] emptyStore;
     do '(g2, s2) <- Group g1 "/a" [announce "a"] s1;
     do '(g3, s3) <- Group g2 "/b" [] s2;
     do '(g4, s4) <- Group g3 "/c" [announce "c"] s3;
     Handle g4 "GET" "/d" (terminal "H") s4) = Ok (tt, s') ∧
    matchers s' =
      matchers emptyStore ++
        [[mkSet "/a/b/c/d"
            (BuildHandler ([announce "root"] ++ [announce "a"] ++ [] ++ [announce "c"])
                          (terminal "H")) ["GET"]]] ∧
    (pattern <$> routers s' !! (length (routers emptyStore) + 3)) = Some "/a/b/c" ∧
    (rm <$> routers s' !! (length (routers emptyStore) + 3))
      = Some (length (matchers emptyStore)) ∧
    length (routers s') = length (routers emptyStore) + 4.
Proof.
  apply (C4_nested_groups_absolute_path emptyStore
           [announce "root"] [announce "a"] [] [announce "c"] "GET" (terminal "H")).
  reflexivity.
Defined.

(** ** Named middlewares *)

Lemma UseNamed_local (fuel : nat) (a : addr) (name : string) (s : store) (r : Router)
    (mws : Middlewares) :
  routers s !! a = Some r → namedMiddlewares r !! name = Some mws →
  UseNamed (S fuel) a name s =
    Ok (tt, setRouter a (mkRouter (rm r) (router r) (middlewares r ++ mws) (pattern r)
                           (notFoundHandler r) (registeredHandlers r) (namedMiddlewares r)) s).
Proof.
  intros Hr Hn. simpl. unfold getRouter. rewrite Hr. cbn [rbind].
  unfold hasNamed. rewrite Hn, bool_decide_eq_true_2 by eauto.
  unfold Use, getRouter. rewrite Hr. reflexivity.
Qed.

(** Without a local definition the call is the parent's call: what it
    appends to is the parent's sequence. *)
Lemma UseNamed_parent (fuel : nat) (a : addr) (name : string) (s : store) (r : Router) :
  routers s !! a = Some r → namedMiddlewares r !! name = None → router r ≠ a →
  UseNamed (S fuel) a name s = UseNamed fuel (router r) name s.
Proof.
  intros Hr Hn Hne. simpl. unfold getRouter. rewrite Hr. cbn [rbind].
  unfold hasNamed. rewrite Hn, bool_decide_eq_false_2 by (intros [? ?]; discriminate).
  unfold isRoot. apply Nat.eqb_neq in Hne. rewrite Hne. reflexivity.
Qed.

Lemma UseNamed_unknown_at_root (fuel : nat) (a : addr) (name : string) (s : store)
    (r : Router) :
  routers s !! a = Some r → namedMiddlewares r !! name = None → router r = a →
  UseNamed (S fuel) a name s = Panic ("Unknow named middlewares: " +:+ name).
Proof.
  intros Hr Hn He. simpl. unfold getRouter. rewrite Hr. cbn [rbind].
  unfold hasNamed. rewrite Hn, bool_decide_eq_false_2 by (intros [? ?]; discriminate).
  unfold isRoot. rewrite He, Nat.eqb_refl. reflexivity.
Qed.

(** C6, the code at the failing input: the root X defines "auth", the
    group Y has the middleware "own" and no definition.  [Y.UseNamed("auth")]
    returns, but the sequence is appended to X's middlewares and Y's stay as
    they were: a route of Y runs auth before own, and a route of the sibling
    group Z runs auth as well.  An unknown name panics. *)
Theorem C6_UseNamed_appends_to_defining_node :
  UseNamed (length (routers namedScene)) 1 "auth" namedScene = Ok (tt, namedSceneAfter) ∧
  (middlewares <$> routers namedScene !! 0) = Some [] ∧
  (middlewares <$> routers namedSceneAfter !! 0) = Some [announce "auth"] ∧
  (middlewares <$> routers namedSceneAfter !! 1) = Some [announce "own"] ∧
  effectsOf (buildMiddlewares 3 (routers namedSceneAfter) 1 (terminal "H"))
    = Some ["auth"; "own"; "H"] ∧
  effectsOf (buildMiddlewares 3 (routers namedSceneAfter) 2 (terminal "H"))
    = Some ["auth"; "H"] ∧
  UseNamed (length (routers namedScene)) 1 "admin" namedScene
    = Panic "Unknow named middlewares: admin".
Proof. repeat split. Qed.

(** ** Validation of patterns *)

Lemma startsWithSlash_nonempty (p : string) : startsWithSlash p = true → p ≠ "".
Proof. intros H ->. discriminate. Qed.

Lemma validatePattern_slash (p : string) : startsWithSlash p = true → validatePattern p = Ok tt.
Proof. intros H. unfold validatePattern. rewrite H, andb_false_r. reflexivity. Qed.

Lemma validatePattern_relative (p : string) :
  p ≠ "" → startsWithSlash p = false →
  validatePattern p = Panic ("path must start with '/' in path '" +:+ p +:+ "'").
Proof.
  intros Hne H. unfold validatePattern. rewrite H.
  destruct p as [|c p]; [contradiction|]. reflexivity.
Qed.

Lemma prevalidation_slash (method p : string) :
  startsWithSlash p = true → isInStringSlice allowedHTTPMethods method = true →
  prevalidation method p = Ok tt.
Proof.
  intros H Hm. unfold prevalidation. rewrite H, Hm.
  destruct p as [|c p]; [discriminate|]. reflexivity.
Qed.

Lemma prevalidation_no_slash (method p : string) :
  startsWithSlash p = false →
  prevalidation method p = Panic ("path must begin with '/' in path '" +:+ p +:+ "'").
Proof. intros H. unfold prevalidation. rewrite H, orb_true_r. reflexivity. Qed.

(** C8 (as the code has it): a non-empty pattern that does not start with
    '/' makes [validatePattern] panic, so registering a route with it panics
    on every node, and so does grouping with it under a node whose own
    pattern is empty, as the root's is; the matcher's prevalidation refuses
    every pattern that does not start with '/', the empty one included.  A
    pattern that starts with '/' passes both validations, and the empty
    pattern passes [validatePattern]. *)
Theorem C8_pattern_validation (p : string) :
  p ≠ "" → startsWithSlash p = false →
  (∃ msg, validatePattern p = Panic msg ∧
     (∀ (a : addr) (method : string) (h : Handler) (s : store),
        Handle a method p h s = Panic msg) ∧
     (∀ (a : addr) (r : Router) (mws : Middlewares) (s : store),
        routers s !! a = Some r → pattern r = "" → Group a p mws s = Panic msg)) ∧
  (∀ method, ∃ msg, prevalidation method p = Panic msg) ∧
  (∀ q, startsWithSlash q = true →
     validatePattern q = Ok tt ∧
     ∀ method, isInStringSlice allowedHTTPMethods method = true →
               prevalidation method q = Ok tt) ∧
  validatePattern "" = Ok tt ∧
  (∀ method, ∃ msg, prevalidation method "" = Panic msg).
Proof.
  intros Hne Hs. split; [|split; [|split; [|split]]].
  - eexists. split; [apply (validatePattern_relative p Hne Hs)|]. split.
    + intros a method h s. unfold Handle.
      rewrite (validatePattern_relative p Hne Hs). reflexivity.
    + intros a r mws s Hr Hp. apply (Group_panic a p mws s r _ Hr).
      rewrite Hp. unfold groupPattern.
      assert (Hp1 : String.eqb p "/" = false).
      { apply String.eqb_neq. intros ->. discriminate. }
      rewrite Hp1. cbn [andb String.append].
      apply (validatePattern_relative p Hne Hs).
  - intros method. eexists. apply prevalidation_no_slash, Hs.
  - intros q Hq. split; [apply validatePattern_slash, Hq|].
    intros method Hm. apply prevalidation_slash; assumption.
  - reflexivity.
  - intros method. eexists. apply prevalidation_no_slash. reflexivity.
Qed.

Lemma C8_pattern_validation_witness :
  (∃ msg, validatePattern "users" = Panic msg ∧
     (∀ (a : addr) (method : string) (h : Handler) (s : store),
        Handle a method "users" h s = Panic msg) ∧
     (∀ (a : addr) (r : Router) (mws : Middlewares) (s : store),
        routers s !! a = Some r → pattern r = "" → Group a "users" mws s = Panic msg)) ∧
  (∀ method, ∃ msg, prevalidation method "users" = Panic msg) ∧
  (∀ q, startsWithSlash q = true →
     validatePattern q = Ok tt ∧
     ∀ method, isInStringSlice allowedHTTPMethods method = true →
               prevalidation method q = Ok tt) ∧
  validatePattern "" = Ok tt ∧
  (∀ method, ∃ msg, prevalidation method "" = Panic msg).
Proof.
  apply (C8_pattern_validation "users").
  - discriminate.
  - reflexivity.
Defined.

(** C8 fails as worded: the empty pattern does not start with '/', yet
    [validatePattern] lets it pass, grouping with it under the root returns
    and registering it on the group at "/a" registers "/a"; and grouping
    under "/a" with the segment "b" returns a group at "/ab", because it is
    the resolved pattern that [Group] validates. *)
Lemma C8_patterns_without_slash_accepted :
  startsWithSlash "" = false ∧
  validatePattern "" = Ok tt ∧
  childPattern (Group 0 "" [] slashScene) = Some "" ∧
  isOk (Handle 1 "GET" "" (terminal "H") slashScene) = true ∧
  registeredEffects (storeOf (Handle 1 "GET" "" (terminal "H") slashScene)) 0
    = [("/a", ["GET"], ["H"])] ∧
  startsWithSlash "b" = false ∧
  childPattern (Group 1 "b" [] slashScene) = Some "/ab".
Proof. repeat split. Qed.

(** * Further properties of the request context *)

(** ** Removing parameters *)

(** [indexOf_loop ps n k] finds the last position below [n] whose key is
    [k]. *)
Lemma indexOf_loop_Some (ps : list parameter) (k : string) : ∀ n i,
  indexOf_loop ps n k = Some i →
  i < n ∧ (∃ p, ps !! i = Some p ∧ key p = k) ∧
  ∀ j q, i < j < n → ps !! j = Some q → key q ≠ k.
Proof.
  induction n as [|n IH]; intros i H; simpl in H; [discriminate|].
  destruct (ps !! n) as [p|] eqn:Hp.
  - destruct (decide (key p = k)) as [Hk|Hk].
    + inversion H; subst i. split; [lia|]. split; [eauto|]. intros j q Hj. lia.
    + destruct (IH i H) as (Hi & Hex & Hlast). split; [lia|]. split; [exact Hex|].
      intros j q Hj Hq. destruct (decide (j = n)) as [->|Hjn].
      * rewrite Hp in Hq. inversion Hq; subst. exact Hk.
      * apply (Hlast j q); [lia|exact Hq].
  - destruct (IH i H) as (Hi & Hex & Hlast). split; [lia|]. split; [exact Hex|].
    intros j q Hj Hq. destruct (decide (j = n)) as [->|Hjn].
    + rewrite Hp in Hq. discriminate.
    + apply (Hlast j q); [lia|exact Hq].
Qed.

Lemma indexOf_loop_None (ps : list parameter) (k : string) : ∀ n,
  indexOf_loop ps n k = None ↔ ∀ j q, j < n → ps !! j = Some q → key q ≠ k.
Proof.
  induction n as [|n IH]; simpl.
  - split; [intros _ j q Hj; lia|reflexivity].
  - destruct (ps !! n) as [p|] eqn:Hp.
    + destruct (decide (key p = k)) as [Hk|Hk].
      * split; [discriminate|]. intros H. exfalso. apply (H n p); [lia|exact Hp|exact Hk].
      * rewrite IH. split; intros H j q Hj Hq.
        -- destruct (decide (j = n)) as [->|Hjn].
           ++ rewrite Hp in Hq. inversion Hq; subst. exact Hk.
           ++ apply (H j q); [lia|exact Hq].
        -- apply (H j q); [lia|exact Hq].
    + rewrite IH. split; intros H j q Hj Hq.
      * destruct (decide (j = n)) as [->|Hjn].
        -- rewrite Hp in Hq. discriminate.
        -- apply (H j q); [lia|exact Hq].
      * apply (H j q); [lia|exact Hq].
Qed.

Lemma indexOf_loop_snoc (ps : list parameter) (k v : string) :
  indexOf_loop (ps ++ [mkParameter k v]) (length (ps ++ [mkParameter k v])) k
    = Some (length ps).
Proof.
  rewrite length_app, Nat.add_1_r. simpl.
  rewrite lookup_app_r by lia. rewrite Nat.sub_diag. simpl.
  destruct (decide (k = k)); [reflexivity|contradiction].
Qed.

(** X1: [Remove] undoes the [AddParam] that came last: adding a pair and
    removing its key gives the context back, whatever it held, other pairs
    under the same key included. *)
Theorem X1_Remove_undoes_AddParam (k v : string) (c : ctx) :
  Remove k (AddParam k v c) = Ok c ∧
  indexOf k (AddParam k v c) = Some (length (params c)).
Proof.
  assert (Hi : indexOf k (AddParam k v c) = Some (length (params c))).
  { unfold indexOf, AddParam; cbn [params]. apply indexOf_loop_snoc. }
  split; [|exact Hi].
  unfold Remove. rewrite Hi. unfold AddParam; cbn [params ResponseWriter parent req code
    statusWritten tags searchHistory].
  rewrite take_app_length.
  rewrite drop_ge by (rewrite length_app; simpl; lia).
  rewrite app_nil_r. destruct c; reflexivity.
Qed.

Lemma ParamOk_loop_skip (k : string) (p : parameter) (l2 : list parameter) : ∀ l1,
  key p ≠ k → ParamOk_loop (l1 ++ p :: l2) k = ParamOk_loop (l1 ++ l2) k.
Proof.
  intros l1 Hp. induction l1 as [|q l1 IH]; simpl.
  - destruct (decide (key p = k)); [contradiction|reflexivity].
  - destruct (decide (key q = k)); [reflexivity|exact IH].
Qed.

Lemma ParamOk_loop_app_absent (k : string) (l2 : list parameter) : ∀ l1,
  Forall (fun q => key q ≠ k) l2 →
  ParamOk_loop (l1 ++ l2) k = ParamOk_loop l1 k.
Proof.
  intros l1 H2. induction l1 as [|q l1 IH]; simpl.
  - apply ParamOk_loop_absent. exact H2.
  - destruct (decide (key q = k)); [reflexivity|exact IH].
Qed.

(** X2: [Remove] panics exactly when no pair has the key.  When it
    returns, one pair is gone, the lookup of every other key is as before,
    and the lookup of the removed key is as before too unless the pair
    removed was the only one: [Remove] takes the last pair with the key
    while [ParamOk] reads the first. *)
Theorem X2_Remove_effect (k : string) (c : ctx) :
  (Forall (fun q => key q ≠ k) (params c) →
     Remove k c = Panic ("Cannot remove unknown key '" +:+ k +:+ "' from context")) ∧
  (∀ c', Remove k c = Ok c' →
     S (length (params c')) = length (params c) ∧
     (∀ k', k' ≠ k → ParamOk k' c' = ParamOk k' c) ∧
     (ParamOk k c' = ParamOk k c ∨
      (ParamOk k c' = ("", false) ∧ snd (ParamOk k c) = true)) ∧
     statusWritten c' = statusWritten c ∧ code c' = code c).
Proof.
  split.
  - intros Hall. unfold Remove, indexOf.
    assert (Hn : indexOf_loop (params c) (length (params c)) k = None).
    { apply indexOf_loop_None. intros j q _ Hq.
      rewrite Forall_forall in Hall. apply Hall.
      apply list_elem_of_lookup. eauto. }
    rewrite Hn. reflexivity.
  - intros c' H. unfold Remove in H.
    destruct (indexOf k c) as [i|] eqn:Hi; [|discriminate].
    inversion H; subst c'; clear H. cbn [params statusWritten code].
    unfold indexOf in Hi. apply indexOf_loop_Some in Hi as (Hlt & (p & Hp & Hk) & Hlast).
    assert (Hsplit : params c = take i (params c) ++ p :: drop (S i) (params c)).
    { symmetry. apply take_drop_middle. exact Hp. }
    assert (Hafter : Forall (fun q => key q ≠ k) (drop (S i) (params c))).
    { apply Forall_lookup. intros j q Hq. rewrite lookup_drop in Hq.
      apply (Hlast (S i + j) q); [|exact Hq].
      apply lookup_lt_Some in Hq. lia. }
    split; [|split; [|split; [|split]]].
    + rewrite length_app, length_take, length_drop. lia.
    + intros k' Hne. unfold ParamOk; cbn [params]. rewrite Hsplit at 3.
      symmetry. apply ParamOk_loop_skip. rewrite Hk. intros E. apply Hne. symmetry. exact E.
    + unfold ParamOk; cbn [params].
      rewrite (ParamOk_loop_app_absent k _ (take i (params c)) Hafter).
      destruct (decide (Forall (fun q => key q ≠ k) (take i (params c)))) as [Hbefore|Hbefore].
      * right. rewrite (ParamOk_loop_absent k _ Hbefore). split; [reflexivity|].
        rewrite Hsplit. rewrite (ParamOk_loop_first k _ _ p Hbefore Hk). reflexivity.
      * left. rewrite Hsplit at 2.
        apply not_Forall_Exists in Hbefore; [|intros q; apply _].
        apply Exists_exists in Hbefore as (q & Hq & Hqk).
        apply dec_stable in Hqk.
        generalize (p :: drop (S i) (params c)). intros rest.
        clear - Hq Hqk. induction (take i (params c)) as [|x l IH]; [inversion Hq|].
        simpl. destruct (decide (key x = k)); [reflexivity|].
        apply IH. inversion Hq; subst; [contradiction|assumption].
    + reflexivity.
    + reflexivity.
Qed.

(** ** The status that reaches the writer *)

Lemma stepOp_written (o : ctxOp) (c c' : ctx) :
  statusWritten c = true → stepOp o c = Ok c' →
  statusWritten c' = true ∧ statusLog c' = statusLog c.
Proof.
  destruct c as [w pa rq ps cd sw tg sh]. simpl. intros ->.
  destruct o as [k v|n|k v| |b t|[b|e]|[b|e]|str|[st|] text];
    unfold stepOp, Error, String_, JSON, XML, raw, setContentType, WithHeader, writeHeader,
      isStatusWritten, setWriter, WithStatus, AddParam, statusLog; simpl;
    destruct w as [w|]; simpl; intros H; inversion H; subst; clear H; simpl; auto.
Qed.

Lemma runOps_written (ops : list ctxOp) : ∀ c c',
  statusWritten c = true → runOps ops c = Ok c' →
  statusWritten c' = true ∧ statusLog c' = statusLog c.
Proof.
  induction ops as [|o ops IH]; intros c c' Hw H; simpl in H.
  - inversion H; subst. auto.
  - destruct (stepOp o c) as [c1| |] eqn:Hstep; simpl in H; try discriminate.
    destruct (stepOp_written _ _ _ Hw Hstep) as [Hw1 Hl1].
    destruct (IH _ _ Hw1 H) as [Hw' Hl']. split; [assumption|congruence].
Qed.

(** X3: the status that reaches the writer is the one staged when the
    first rendering happens.  After [WithStatus n] and [String] on a context
    whose status is unwritten the writer has received [n]; whatever is
    staged or rendered afterwards, it receives no other status. *)
Theorem X3_first_status_wins
    (c c1 c2 : ctx) (n : Z) (str : string) (err : option error) (ops : list ctxOp) :
  statusWritten c = false →
  String_ str (WithStatus n c) = Ok (c1, err) →
  runOps ops c1 = Ok c2 →
  statusLog c1 = statusLog c ++ [n] ∧
  statusLog c2 = statusLog c ++ [n] ∧
  statusWritten c2 = true ∧
  code c1 = n.
Proof.
  intros Hw Hs Hrun.
  assert (H1 : statusLog c1 = statusLog c ++ [n] ∧ statusWritten c1 = true ∧ code c1 = n).
  { destruct c as [w pa rq ps cd sw tg sh]. simpl in Hw. subst sw.
    unfold String_, raw, setContentType, WithHeader, writeHeader, isStatusWritten, setWriter,
      WithStatus, statusLog in *; simpl in *.
    destruct w as [w|]; simpl in Hs; inversion Hs; subst; simpl. auto. }
  destruct H1 as (Hl1 & Hw1 & Hc1).
  destruct (runOps_written ops c1 c2 Hw1 Hrun) as [Hw2 Hl2].
  repeat split; try assumption. congruence.
Qed.

Lemma X3_first_status_wins_witness :
  statusLog (fst (demoRendered "created")) = statusLog demoCtx ++ [201%Z] ∧
  statusLog demoCtxLater = statusLog demoCtx ++ [201%Z] ∧
  statusWritten demoCtxLater = true ∧
  code (fst (demoRendered "created")) = 201%Z.
Proof.
  apply (X3_first_status_wins demoCtx (fst (demoRendered "created")) demoCtxLater 201
           "created" (snd (demoRendered "created"))
           [OpWithStatus 500; OpString "again"; OpError (Some 404%Z) "Not Found"]).
  - reflexivity.
  - vm_compute. reflexivity.
  - vm_compute. reflexivity.
Defined.

Lemma X2_Remove_effect_witness :
  S (length (params demoRemoved)) = length (params demoParams) ∧
  (∀ k', k' ≠ "id" → ParamOk k' demoRemoved = ParamOk k' demoParams) ∧
  (ParamOk "id" demoRemoved = ParamOk "id" demoParams ∨
   (ParamOk "id" demoRemoved = ("", false) ∧ snd (ParamOk "id" demoParams) = true)) ∧
  statusWritten demoRemoved = statusWritten demoParams ∧
  code demoRemoved = code demoParams.
Proof.
  apply (proj2 (X2_Remove_effect "id" demoParams) demoRemoved).
  vm_compute. reflexivity.
Defined.

(** X4: a context without a response writer, as every context is after
    [Reset], cannot render: setting a header, committing the status and
    every renderer that reaches [raw] panic on the nil writer.  A renderer
    whose marshalling failed returns the error before touching the writer. *)
Theorem X4_no_writer_no_rendering (c : ctx) :
  ResponseWriter c = None →
  (∀ k v, WithHeader k v c = Panic nilDeref) ∧
  (statusWritten c = false → writeHeader c = Panic nilDeref) ∧
  (∀ b t, raw b t c = Panic nilDeref) ∧
  (∀ b, JSON (inl b) c = Panic nilDeref ∧ XML (inl b) c = Panic nilDeref) ∧
  (∀ str, String_ str c = Panic nilDeref) ∧
  (∀ herr text, Error herr text c = Panic nilDeref) ∧
  (∀ e, JSON (inr e) c = Ok (c, Some e) ∧ XML (inr e) c = Ok (c, Some e)) ∧
  (∀ d b t, raw b t (Reset d) = Panic nilDeref).
Proof.
  intros Hw.
  assert (Hh : ∀ k v d, ResponseWriter d = None → WithHeader k v d = Panic nilDeref).
  { intros k v d Hd. unfold WithHeader. rewrite Hd. reflexivity. }
  assert (Hraw : ∀ b t d, ResponseWriter d = None → raw b t d = Panic nilDeref).
  { intros b t d Hd. unfold raw, setContentType. rewrite (Hh _ _ d Hd). reflexivity. }
  split; [intros k v; apply Hh, Hw|].
  split; [intros Hs; unfold writeHeader, isStatusWritten; rewrite Hs, Hw; reflexivity|].
  split; [intros b t; apply Hraw, Hw|].
  split; [intros b; split; apply Hraw, Hw|].
  split; [intros str; apply Hraw, Hw|].
  split; [intros [st|] text; apply Hraw; simpl; exact Hw|].
  split; [intros e; split; reflexivity|].
  intros d b t. apply Hraw. reflexivity.
Qed.

Lemma X4_no_writer_no_rendering_witness :
  (∀ k v, WithHeader k v (Reset demoCtx) = Panic nilDeref) ∧
  (statusWritten (Reset demoCtx) = false → writeHeader (Reset demoCtx) = Panic nilDeref) ∧
  (∀ b t, raw b t (Reset demoCtx) = Panic nilDeref) ∧
  (∀ b, JSON (inl b) (Reset demoCtx) = Panic nilDeref ∧
        XML (inl b) (Reset demoCtx) = Panic nilDeref) ∧
  (∀ str, String_ str (Reset demoCtx) = Panic nilDeref) ∧
  (∀ herr text, Error herr text (Reset demoCtx) = Panic nilDeref) ∧
  (∀ e, JSON (inr e) (Reset demoCtx) = Ok (Reset demoCtx, Some e) ∧
        XML (inr e) (Reset demoCtx) = Ok (Reset demoCtx, Some e)) ∧
  (∀ d b t, raw b t (Reset d) = Panic nilDeref).
Proof. apply (X4_no_writer_no_rendering (Reset demoCtx)). reflexivity. Defined.

(** X5: rendering an error.  On a context with a writer, [Error] sets the
    content type to plain text, writes to the body what [fmt.Sprintf] makes
    of the error text used as a format, and returns what the writer's
    [Write] returned.  If the status is still unwritten it commits the status
    the HTTPError carries (the staged code for any other error); if a status
    was written before, the writer receives no other one. *)
Theorem X5_Error_renders
    (c : ctx) (w : responseWriter) (herr : option Z) (formatted : string) :
  ResponseWriter c = Some w →
  ∃ c' w',
    Error herr formatted c = Ok (c', wErr w) ∧
    ResponseWriter c' = Some w' ∧
    wHeader w' !! "Content-Type" = Some contentTypeTextPlain ∧
    wBody w' = wBody w ++ [formatted] ∧
    statusWritten c' = true ∧
    code c' = default (code c) herr ∧
    wStatus w' = (if statusWritten c then wStatus w
                  else wStatus w ++ [default (code c) herr]).
Proof.
  intros Hw. destruct c as [cw pa rq ps cd sw tg sh]. simpl in Hw. subst cw.
  destruct herr as [st|]; destruct sw;
    unfold Error, String_, raw, setContentType, WithHeader, writeHeader, isStatusWritten,
      setWriter, WithStatus; simpl;
    eexists; eexists; (split; [reflexivity|]); simpl;
    (split; [reflexivity|]); (split; [apply lookup_insert_eq|]); repeat split.
Qed.

Lemma X5_Error_renders_witness :
  ∃ c' w',
    Error (Some 401%Z) "Unauthorized" demoCtx = Ok (c', wErr demoWriter) ∧
    ResponseWriter c' = Some w' ∧
    wHeader w' !! "Content-Type" = Some contentTypeTextPlain ∧
    wBody w' = wBody demoWriter ++ ["Unauthorized"] ∧
    statusWritten c' = true ∧
    code c' = default (code demoCtx) (Some 401%Z) ∧
    wStatus w' = (if statusWritten demoCtx then wStatus demoWriter
                  else wStatus demoWriter ++ [default (code demoCtx) (Some 401%Z)]).
Proof.
  apply (X5_Error_renders demoCtx demoWriter (Some 401%Z) "Unauthorized"). reflexivity.
Defined.

(** * Further properties of the router and the matcher adapter *)

(** ** The matcher adapter *)

Lemma isInStringSlice_In (slice : list string) (x : string) :
  isInStringSlice slice x = true ↔ In x slice.
Proof.
  induction slice as [|v rest IH]; simpl.
  - split; [discriminate|contradiction].
  - destruct (String.eqb_spec v x) as [->|Hne].
    + split; auto.
    + rewrite IH. split; [auto|]. intros [E|H]; [contradiction|exact H].
Qed.

(** X6: [prevalidation] returns exactly for the patterns that start with
    '/' registered under one of the nine supported verbs; for any other
    pattern or verb it panics. *)
Theorem X6_prevalidation_accepts (method p : string) :
  (prevalidation method p = Ok tt ↔
     startsWithSlash p = true ∧ In method allowedHTTPMethods) ∧
  (prevalidation method p ≠ Ok tt → ∃ msg, prevalidation method p = Panic msg).
Proof.
  split.
  - rewrite <- isInStringSlice_In. unfold prevalidation.
    destruct (startsWithSlash p) eqn:Hs.
    + assert (Hlen : (String.length p =? 0) = false)
        by (destruct p; [discriminate|reflexivity]).
      rewrite Hlen. cbn [negb orb].
      destruct (isInStringSlice allowedHTTPMethods method); cbn [negb].
      * split; auto.
      * split; [discriminate|]. intros [_ H]; discriminate.
    + rewrite orb_true_r. split; [discriminate|]. intros [H _]; discriminate.
  - intros H. destruct (prevalidation method p) as [[]|msg|] eqn:E.
    + contradiction.
    + eauto.
    + exfalso. unfold prevalidation in E.
      repeat match type of E with (if ?b then _ else _) = _ => destruct b end; discriminate.
Qed.

(** X7: the slots of [methodsHandlers].  A handler set under a supported
    verb is the one got back under that verb, and getting any other verb is
    unaffected; under an unsupported verb [Set] changes nothing and [Get]
    answers nil.  With a tag list that has not exactly one tag both panic. *)
Theorem X7_methodsHandlers_Set_Get
    (method : string) (v : option Handler) (gs : methodsHandlers) :
  getHandler method (addHandler method v gs)
    = (if isInStringSlice allowedHTTPMethods method then v else None) ∧
  (∀ other, other ≠ method →
     getHandler other (addHandler method v gs) = getHandler other gs) ∧
  (isInStringSlice allowedHTTPMethods method = false → addHandler method v gs = gs) ∧
  (∀ h, mh_Set (ValueHandler h) [method] gs = Ok (addHandler method (Some h) gs)) ∧
  mh_Get [method] (addHandler method v gs)
    = Ok (if isInStringSlice allowedHTTPMethods method then v else None) ∧
  (∀ tgs value, length tgs ≠ 1 →
     mh_Set value tgs gs = Panic "Length != 1" ∧ mh_Get tgs gs = Panic "No method").
Proof.
  assert (H1 : getHandler method (addHandler method v gs)
               = (if isInStringSlice allowedHTTPMethods method then v else None)).
  { unfold getHandler, addHandler, allowedHTTPMethods, isInStringSlice.
    rewrite !(String.eqb_sym _ method).
    repeat match goal with
    | |- context [String.eqb method ?x] =>
        destruct (String.eqb method x) eqn:?; [reflexivity|]
    end. reflexivity. }
  split; [exact H1|]. split; [|split; [|split; [|split]]].
  - intros other Hne. unfold getHandler, addHandler.
    repeat match goal with
    | |- context [String.eqb method ?x] =>
        destruct (String.eqb_spec method x) as [->|?]
    end;
    repeat match goal with
    | |- context [String.eqb other ?x] =>
        destruct (String.eqb_spec other x) as [->|?]
    end; try reflexivity; try contradiction.
  - unfold addHandler, allowedHTTPMethods, isInStringSlice.
    rewrite !(String.eqb_sym _ method).
    repeat match goal with
    | |- context [String.eqb method ?x] =>
        destruct (String.eqb method x) eqn:?; [discriminate|]
    end. reflexivity.
  - reflexivity.
  - unfold mh_Get. rewrite H1. reflexivity.
  - intros tgs value Hlen. destruct tgs as [|t [|t' tgs]]; simpl in Hlen; try lia;
      split; reflexivity.
Qed.

(** ** Use and Define *)

Lemma router_eta (r : Router) :
  mkRouter (rm r) (router r) (middlewares r) (pattern r) (notFoundHandler r)
           (registeredHandlers r) (namedMiddlewares r) = r.
Proof. destruct r; reflexivity. Qed.

Lemma Use_ok (a : addr) (mws : Middlewares) (s : store) (r : Router) :
  routers s !! a = Some r →
  Use a mws s =
    Ok (tt, setRouter a (mkRouter (rm r) (router r) (middlewares r ++ mws) (pattern r)
                           (notFoundHandler r) (registeredHandlers r) (namedMiddlewares r)) s).
Proof. intros Hr. unfold Use, getRouter. rewrite Hr. reflexivity. Qed.

Lemma Use_nil (a : addr) (s : store) (r : Router) :
  routers s !! a = Some r → Use a [] s = Ok (tt, s).
Proof.
  intros Hr. rewrite (Use_ok a [] s r Hr). rewrite app_nil_r, router_eta.
  unfold setRouter. rewrite (list_insert_id _ _ _ Hr). destruct s; reflexivity.
Qed.

Lemma Use_Use (a : addr) (m1 m2 : Middlewares) (s : store) (r : Router) :
  routers s !! a = Some r →
  (do '(_, s1) <- Use a m1 s; Use a m2 s1) = Use a (m1 ++ m2) s.
Proof.
  intros Hr. rewrite (Use_ok a m1 s r Hr). cbn [rbind].
  assert (Ha : a < length (routers s)) by (eapply lookup_lt_Some; eauto).
  erewrite Use_ok by (unfold setRouter; cbn [routers]; apply list_lookup_insert_eq, Ha).
  rewrite (Use_ok a (m1 ++ m2) s r Hr).
  unfold setRouter; cbn [routers matchers rm router middlewares pattern notFoundHandler
                           registeredHandlers namedMiddlewares].
  rewrite list_insert_insert_eq, app_assoc. reflexivity.
Qed.

(** X8: middlewares accumulate in call order.  Two calls of [Use] are one
    call with the two lists in sequence, [UseFunc] is [Use] of the whole
    list, and the node's middlewares afterwards are the old ones followed
    by the new; no matcher and no other node changes. *)
Theorem X8_Use_accumulates (a : addr) (m1 m2 : Middlewares) (s : store) (r : Router) :
  routers s !! a = Some r →
  (do '(_, s1) <- Use a m1 s; Use a m2 s1) = Use a (m1 ++ m2) s ∧
  UseFunc a m1 s = Use a m1 s ∧
  ∃ s', Use a m1 s = Ok (tt, s') ∧
        (middlewares <$> routers s' !! a) = Some (middlewares r ++ m1) ∧
        (∀ b, b ≠ a → routers s' !! b = routers s !! b) ∧
        matchers s' = matchers s.
Proof.
  intros Hr. split; [apply (Use_Use a m1 m2 s r Hr)|]. split.
  - clear m2. revert s r Hr. induction m1 as [|fn rest IH]; intros s r Hr.
    + simpl. symmetry. apply (Use_nil a s r Hr).
    + transitivity (Use a ([fn] ++ rest) s); [|reflexivity].
      rewrite <- (Use_Use a [fn] rest s r Hr). cbn [UseFunc].
      rewrite (Use_ok a [fn] s r Hr). cbn [rbind].
      apply IH with (r := mkRouter (rm r) (router r) (middlewares r ++ [fn]) (pattern r)
                             (notFoundHandler r) (registeredHandlers r) (namedMiddlewares r)).
      unfold setRouter; cbn [routers]. apply list_lookup_insert_eq.
      eapply lookup_lt_Some; eauto.
  - eexists. split; [apply (Use_ok a m1 s r Hr)|].
    unfold setRouter; cbn [routers matchers]. split; [|split].
    + rewrite list_lookup_insert_eq by (eapply lookup_lt_Some; eauto). reflexivity.
    + intros b Hb. apply list_lookup_insert_ne. intros E. apply Hb. symmetry. exact E.
    + reflexivity.
Qed.

Lemma X8_Use_accumulates_witness :
  (do '(_, s1) <- Use 1 [announce "a"] orderScene; Use 1 [announce "b"] s1)
    = Use 1 ([announce "a"] ++ [announce "b"]) orderScene ∧
  UseFunc 1 [announce "a"] orderScene = Use 1 [announce "a"] orderScene ∧
  ∃ s', Use 1 [announce "a"] orderScene = Ok (tt, s') ∧
        (middlewares <$> routers s' !! 1)
          = Some (middlewares (mkRouter 0 0 [announce "M2"] "/child" None [] ∅)
                    ++ [announce "a"]) ∧
        (∀ b, b ≠ 1 → routers s' !! b = routers orderScene !! b) ∧
        matchers s' = matchers orderScene.
Proof.
  apply (X8_Use_accumulates 1 [announce "a"] [announce "b"] orderScene
           (mkRouter 0 0 [announce "M2"] "/child" None [] ∅)).
  reflexivity.
Defined.

Lemma Define_ok (a : addr) (name : string) (mws : Middlewares) (s : store) (r : Router) :
  routers s !! a = Some r →
  Define a name mws s =
    Ok (tt, setRouter a
              (mkRouter (rm r) (router r) (middlewares r) (pattern r) (notFoundHandler r)
                 (registeredHandlers r)
                 (<[name := default [] (namedMiddlewares r !! name) ++ mws]>
                    (namedMiddlewares r))) s).
Proof. intros Hr. unfold Define, getRouter. rewrite Hr. reflexivity. Qed.

Lemma Define_Define (a : addr) (name : string) (m1 m2 : Middlewares) (s : store)
    (r : Router) :
  routers s !! a = Some r →
  (do '(_, s1) <- Define a name m1 s; Define a name m2 s1) = Define a name (m1 ++ m2) s.
Proof.
  intros Hr. rewrite (Define_ok a name m1 s r Hr). cbn [rbind].
  assert (Ha : a < length (routers s)) by (eapply lookup_lt_Some; eauto).
  erewrite Define_ok by (unfold setRouter; cbn [routers]; apply list_lookup_insert_eq, Ha).
  rewrite (Define_ok a name (m1 ++ m2) s r Hr).
  unfold setRouter; cbn [routers matchers rm router middlewares pattern notFoundHandler
                           registeredHandlers namedMiddlewares].
  rewrite list_insert_insert_eq, lookup_insert_eq, insert_insert_eq. cbn [default].
  rewrite app_assoc. reflexivity.
Qed.

(** X9: definitions accumulate per name.  After [Define] the name holds
    its earlier sequence followed by the new one and is known to
    [hasNamed], even when the new sequence is empty; other names and the
    node's own middlewares are untouched.  Two calls are one call with the
    two lists in sequence, and [DefineFunc] of a non-empty list is [Define]
    of that list. *)
Theorem X9_Define_accumulates
    (a : addr) (name : string) (m1 m2 : Middlewares) (s : store) (r : Router) :
  routers s !! a = Some r →
  (do '(_, s1) <- Define a name m1 s; Define a name m2 s1) = Define a name (m1 ++ m2) s ∧
  (m1 ≠ [] → DefineFunc a name m1 s = Define a name m1 s) ∧
  ∃ s' r', Define a name m1 s = Ok (tt, s') ∧
           routers s' !! a = Some r' ∧
           namedMiddlewares r' !! name
             = Some (default [] (namedMiddlewares r !! name) ++ m1) ∧
           hasNamed name r' = true ∧
           (∀ other, other ≠ name →
              namedMiddlewares r' !! other = namedMiddlewares r !! other) ∧
           middlewares r' = middlewares r.
Proof.
  intros Hr. split; [apply (Define_Define a name m1 m2 s r Hr)|]. split.
  - clear m2. revert s r Hr. induction m1 as [|mw rest IH]; intros s r Hr Hne;
      [contradiction|].
    cbn [DefineFunc]. destruct rest as [|mw' rest'].
    + cbn [DefineFunc]. destruct (Define a name [mw] s) as [[[] s1]| |]; reflexivity.
    + transitivity (Define a name ([mw] ++ (mw' :: rest')) s); [|reflexivity].
      rewrite <- (Define_Define a name [mw] (mw' :: rest') s r Hr).
      rewrite (Define_ok a name [mw] s r Hr). cbn [rbind].
      eapply IH; [|discriminate].
      unfold setRouter; cbn [routers]. apply list_lookup_insert_eq.
      eapply lookup_lt_Some; eauto.
  - eexists. eexists. split; [apply (Define_ok a name m1 s r Hr)|].
    unfold setRouter; cbn [routers]. split; [|split; [|split; [|split]]].
    + apply list_lookup_insert_eq. eapply lookup_lt_Some; eauto.
    + cbn [namedMiddlewares]. apply lookup_insert_eq.
    + unfold hasNamed; cbn [namedMiddlewares]. rewrite lookup_insert_eq.
      apply bool_decide_eq_true_2. eauto.
    + intros other Hne. cbn [namedMiddlewares]. apply lookup_insert_ne.
      intros E. apply Hne. symmetry. exact E.
    + reflexivity.
Qed.

Lemma X9_Define_accumulates_witness :
  (do '(_, s1) <- Define 0 "auth" [announce "a"] namedScene;
   Define 0 "auth" [announce "b"] s1)
    = Define 0 "auth" ([announce "a"] ++ [announce "b"]) namedScene ∧
  ([announce "a"] ≠ [] →
     DefineFunc 0 "auth" [announce "a"] namedScene
       = Define 0 "auth" [announce "a"] namedScene) ∧
  ∃ s' r', Define 0 "auth" [announce "a"] namedScene = Ok (tt, s') ∧
           routers s' !! 0 = Some r' ∧
           namedMiddlewares r' !! "auth"
             = Some (default [] (namedMiddlewares
                                   (mkRouter 0 0 [] "" None []
                                      (<["auth" := [announce "auth"]]> ∅)) !! "auth")
                       ++ [announce "a"]) ∧
           hasNamed "auth" r' = true ∧
           (∀ other, other ≠ "auth" →
              namedMiddlewares r' !! other
                = namedMiddlewares (mkRouter 0 0 [] "" None []
                                      (<["auth" := [announce "auth"]]> ∅)) !! other) ∧
           middlewares r' = middlewares (mkRouter 0 0 [] "" None []
                                           (<["auth" := [announce "auth"]]> ∅)).
Proof.
  apply (X9_Define_accumulates 0 "auth" [announce "a"] [announce "b"] namedScene
           (mkRouter 0 0 [] "" None [] (<["auth" := [announce "auth"]]> ∅))).
  reflexivity.
Defined.

(** ** Named middlewares, in general *)

Lemma UseNamed_characterised (s : store) (name : string) : wf s →
  ∀ fuel a, a < fuel → a < length (routers s) →
  match definingNode fuel (routers s) a name with
  | Some d =>
      ∃ rd mws, routers s !! d = Some rd ∧ d ≤ a ∧
                namedMiddlewares rd !! name = Some mws ∧
                UseNamed fuel a name s =
                  Ok (tt, setRouter d
                            (mkRouter (rm rd) (router rd) (middlewares rd ++ mws) (pattern rd)
                               (notFoundHandler rd) (registeredHandlers rd)
                               (namedMiddlewares rd)) s)
  | None => UseNamed fuel a name s = Panic ("Unknow named middlewares: " +:+ name)
  end.
Proof.
  intros Hwf. induction fuel as [|fuel IH]; intros a Hf Ha; [lia|].
  destruct (lookup_lt_is_Some_2 _ _ Ha) as [r Hr].
  cbn [definingNode]. rewrite Hr.
  destruct (namedMiddlewares r !! name) as [mws|] eqn:Hn.
  - assert (Hh : hasNamed name r = true)
      by (unfold hasNamed; rewrite Hn; apply bool_decide_eq_true_2; eauto).
    rewrite Hh. exists r, mws. split; [exact Hr|]. split; [lia|]. split; [exact Hn|].
    apply (UseNamed_local fuel a name s r mws Hr Hn).
  - assert (Hh : hasNamed name r = false).
    { unfold hasNamed. rewrite Hn. apply bool_decide_eq_false_2. intros [? ?]. discriminate. }
    rewrite Hh. destruct (isRoot a r) eqn:Hroot; cbn [negb].
    + apply (UseNamed_unknown_at_root fuel a name s r Hr Hn).
      unfold isRoot in Hroot. apply Nat.eqb_eq in Hroot. exact Hroot.
    + unfold isRoot in Hroot. apply Nat.eqb_neq in Hroot.
      destruct (wf_lookup s a r Hwf Hr) as [Hle _].
      rewrite (UseNamed_parent fuel a name s r Hr Hn Hroot).
      specialize (IH (router r) ltac:(lia) ltac:(lia)).
      destruct (definingNode fuel (routers s) (router r) name) as [d|]; [|exact IH].
      destruct IH as (rd & mws & Hd & Hda & Hmws & Hrun).
      exists rd, mws. split; [exact Hd|]. split; [lia|]. split; [exact Hmws|exact Hrun].
Qed.

(** X10: what [UseNamed] does on a well-formed store.  It walks from the
    node towards the root to the nearest node with an entry for the name.
    If there is none it panics naming the unknown name.  Otherwise it
    returns, and the only change is at that defining node: its sequence for
    the name is appended to its own middlewares.  The node the call was made
    on changes only when it is the defining node itself. *)
Theorem X10_UseNamed_in_general (s : store) (a : addr) (name : string) :
  wf s → a < length (routers s) →
  match definingNode (length (routers s)) (routers s) a name with
  | Some d =>
      ∃ rd mws s',
        routers s !! d = Some rd ∧ d ≤ a ∧
        namedMiddlewares rd !! name = Some mws ∧
        UseNamed (length (routers s)) a name s = Ok (tt, s') ∧
        (middlewares <$> routers s' !! d) = Some (middlewares rd ++ mws) ∧
        (∀ b, b ≠ d → routers s' !! b = routers s !! b) ∧
        matchers s' = matchers s
  | None =>
      UseNamed (length (routers s)) a name s = Panic ("Unknow named middlewares: " +:+ name)
  end.
Proof.
  intros Hwf Ha.
  pose proof (UseNamed_characterised s name Hwf (length (routers s)) a Ha Ha) as H.
  destruct (definingNode (length (routers s)) (routers s) a name) as [d|]; [|exact H].
  destruct H as (rd & mws & Hd & Hda & Hmws & Hrun).
  exists rd, mws. eexists. split; [exact Hd|]. split; [exact Hda|]. split; [exact Hmws|].
  split; [exact Hrun|]. unfold setRouter; cbn [routers matchers]. split; [|split].
  - rewrite list_lookup_insert_eq by (eapply lookup_lt_Some; eauto). reflexivity.
  - intros b Hb. apply list_lookup_insert_ne. exact (fun E => Hb (eq_sym E)).
  - reflexivity.
Qed.

Lemma X10_UseNamed_in_general_witness :
  match definingNode (length (routers namedScene)) (routers namedScene) 1 "auth" with
  | Some d =>
      ∃ rd mws s',
        routers namedScene !! d = Some rd ∧ d ≤ 1 ∧
        namedMiddlewares rd !! "auth" = Some mws ∧
        UseNamed (length (routers namedScene)) 1 "auth" namedScene = Ok (tt, s') ∧
        (middlewares <$> routers s' !! d) = Some (middlewares rd ++ mws) ∧
        (∀ b, b ≠ d → routers s' !! b = routers namedScene !! b) ∧
        matchers s' = matchers namedScene
  | None =>
      UseNamed (length (routers namedScene)) 1 "auth" namedScene
        = Panic ("Unknow named middlewares: " +:+ "auth")
  end.
Proof.
  apply (X10_UseNamed_in_general namedScene 1 "auth").
  - vm_compute. reflexivity.
  - vm_compute. lia.
Defined.

(** ** Well-formedness is kept by the setup calls *)

Lemma wf_from_intro (nm : nat) : ∀ rs off,
  (∀ i r, rs !! i = Some r → router r ≤ off + i ∧ rm r < nm) →
  wf_from nm off rs = true.
Proof.
  induction rs as [|x rs IH]; intros off H; [reflexivity|]. cbn [wf_from].
  destruct (H 0 x eq_refl) as [H1 H2].
  apply andb_true_intro. split; [apply andb_true_intro; split|].
  - apply Nat.leb_le. lia.
  - apply Nat.ltb_lt. exact H2.
  - apply IH. intros i r Hi. destruct (H (S i) r Hi). split; [lia|assumption].
Qed.

Lemma wf_intro (s : store) :
  (∀ a r, routers s !! a = Some r → router r ≤ a ∧ rm r < length (matchers s)) → wf s.
Proof. intros H. apply wf_from_intro. exact H. Qed.

Lemma wf_setRouter (s : store) (a : addr) (r r' : Router) :
  wf s → routers s !! a = Some r → router r' = router r → rm r' = rm r →
  wf (setRouter a r' s).
Proof.
  intros Hwf Hr Hp Hm. apply wf_intro. unfold setRouter; cbn [routers matchers].
  intros b q Hq. destruct (decide (a = b)) as [->|Hne].
  - rewrite list_lookup_insert_eq in Hq by (eapply lookup_lt_Some; eauto).
    inversion Hq; subst q. rewrite Hp, Hm. apply (wf_lookup s b r Hwf Hr).
  - rewrite list_lookup_insert_ne in Hq by exact Hne. apply (wf_lookup s b q Hwf Hq).
Qed.

Lemma wf_setMatcher (s : store) (m : addr) (calls : list setCall) :
  wf s → wf (mkStore (routers s) (<[m := calls]> (matchers s))).
Proof.
  intros Hwf. apply wf_intro. cbn [routers matchers]. intros a r Hr.
  rewrite length_insert. apply (wf_lookup s a r Hwf Hr).
Qed.

Lemma wf_snoc (s : store) (x : Router) (ms : list (list setCall)) :
  wf s → router x ≤ length (routers s) → rm x < length ms →
  length (matchers s) ≤ length ms →
  wf (mkStore (routers s ++ [x]) ms).
Proof.
  intros Hwf Hp Hm Hlen. apply wf_intro. cbn [routers matchers]. intros a r Hr.
  destruct (decide (a < length (routers s))) as [Ha|Ha].
  - rewrite lookup_app_l in Hr by exact Ha.
    destruct (wf_lookup s a r Hwf Hr). split; [assumption|lia].
  - rewrite lookup_app_r in Hr by lia.
    destruct (a - length (routers s)) as [|n] eqn:E; simpl in Hr; [|discriminate].
    inversion Hr; subst r. split; [lia|exact Hm].
Qed.

Lemma Use_wf (a : addr) (mws : Middlewares) (s s' : store) (x : unit) :
  wf s → Use a mws s = Ok (x, s') → wf s'.
Proof.
  intros Hwf H. unfold Use, getRouter in H.
  destruct (routers s !! a) as [r|] eqn:Hr; cbn [rbind] in H; [|discriminate].
  inversion H; subst. apply (wf_setRouter s a r _ Hwf Hr); reflexivity.
Qed.

Lemma Define_wf (a : addr) (name : string) (mws : Middlewares) (s s' : store) (x : unit) :
  wf s → Define a name mws s = Ok (x, s') → wf s'.
Proof.
  intros Hwf H. unfold Define, getRouter in H.
  destruct (routers s !! a) as [r|] eqn:Hr; cbn [rbind] in H; [|discriminate].
  inversion H; subst. apply (wf_setRouter s a r _ Hwf Hr); reflexivity.
Qed.

Lemma New_wf (mws : Middlewares) (s s' : store) (a : addr) :
  wf s → New mws s = Ok (a, s') → wf s'.
Proof.
  intros Hwf H. rewrite New_ok in H. inversion H; subst.
  apply wf_snoc; cbn [router rm]; try rewrite length_app; simpl; try lia. exact Hwf.
Qed.

Lemma Group_wf (a : addr) (pat : string) (mws : Middlewares) (s s' : store) (na : addr) :
  wf s → Group a pat mws s = Ok (na, s') → wf s'.
Proof.
  intros Hwf H.
  destruct (routers s !! a) as [r|] eqn:Hr.
  - destruct (validatePattern (groupPattern (pattern r) pat)) as [[]|msg|] eqn:Hv.
    + rewrite (Group_ok a pat mws s r Hr Hv) in H. inversion H; subst.
      destruct (wf_lookup s a r Hwf Hr) as [_ Hm].
      apply wf_snoc; cbn [router rm]; try lia; [exact Hwf|].
      apply lookup_lt_Some in Hr. lia.
    + rewrite (Group_panic a pat mws s r msg Hr Hv) in H. discriminate.
    + unfold Group, getRouter in H. rewrite Hr in H. cbn [rbind] in H.
      rewrite Hv in H. discriminate.
  - unfold Group, getRouter in H. rewrite Hr in H. discriminate.
Qed.

Lemma Handle_wf (a : addr) (method pat : string) (h : Handler) (s s' : store) (x : unit) :
  wf s → Handle a method pat h s = Ok (x, s') → wf s'.
Proof.
  intros Hwf H. unfold Handle in H.
  destruct (validatePattern pat) as [[]| |]; cbn [rbind] in H; try discriminate.
  unfold getRouter at 1 in H.
  destruct (routers s !! a) as [r|] eqn:Hr; cbn [rbind] in H; [|discriminate].
  destruct (buildMiddlewares (length (routers s)) (routers s) a h) as [built| |];
    cbn [rbind] in H; try discriminate.
  match type of H with
  | context [getRouter ?p ?s1] => destruct (getRouter p s1) as [up| |]
  end; cbn [rbind] in H; try discriminate.
  unfold Register in H.
  match type of H with
  | context [prevalidation ?m ?p] => destruct (prevalidation m p) as [[]| |]
  end; cbn [rbind] in H; try discriminate.
  match type of H with
  | context [@lookup _ _ _ _ ?i ?l] => destruct (@lookup _ _ _ _ i l) as [calls|]
  end; [|discriminate].
  inversion H; subst. cbn [routers matchers setRouter].
  apply (wf_setMatcher (setRouter a _ s)).
  apply (wf_setRouter s a r _ Hwf Hr); reflexivity.
Qed.

Lemma replay_wf (sub : addr) : ∀ (rhs : list registeredHandler) (s s' : store) (x : unit),
  wf s → replay sub rhs s = Ok (x, s') → wf s'.
Proof.
  induction rhs as [|rh rhs IH]; intros s s' x Hwf H; cbn [replay] in H.
  - inversion H; subst. exact Hwf.
  - destruct (Handle sub (rh_method rh) (rh_pattern rh) (rh_handler rh) s)
      as [[[] s1]| |] eqn:Hh; cbn [rbind] in H; try discriminate.
    apply (IH s1 s' x); [|exact H]. apply (Handle_wf _ _ _ _ _ _ _ Hwf Hh).
Qed.

Lemma Mount_wf (a : addr) (pat : string) (other : addr) (mws : Middlewares)
    (s s' : store) (x : unit) :
  wf s → Mount a pat other mws s = Ok (x, s') → wf s'.
Proof.
  intros Hwf H. unfold Mount in H.
  destruct (Group a pat mws s) as [[sub s1]| |] eqn:Hg; cbn [rbind] in H; try discriminate.
  destruct (getRouter other s1) as [o| |]; cbn [rbind] in H; try discriminate.
  apply (replay_wf sub (registeredHandlers o) s1 s' x); [|exact H].
  apply (Group_wf _ _ _ _ _ _ Hwf Hg).
Qed.

Lemma UseNamed_wf (name : string) : ∀ (fuel : nat) (a : addr) (s s' : store) (x : unit),
  wf s → UseNamed fuel a name s = Ok (x, s') → wf s'.
Proof.
  induction fuel as [|fuel IH]; intros a s s' x Hwf H; cbn [UseNamed] in H; [discriminate|].
  destruct (getRouter a s) as [r| |]; cbn [rbind] in H; try discriminate.
  destruct (hasNamed name r).
  - apply (Use_wf _ _ _ _ _ Hwf H).
  - destruct (negb (isRoot a r)); [|discriminate]. apply (IH _ _ _ _ Hwf H).
Qed.

(** X12: the stores setup code can reach are well formed: the empty store
    is (every parent allocated before its children, every matcher pointer
    allocated), and whenever [New], [Group], [Use], [Define], [Handle],
    [Mount] or [UseNamed] returns on a well-formed store, the store it
    leaves is well formed. *)
Theorem X12_setup_keeps_wf (s : store) :
  wf s →
  wf emptyStore ∧
  (∀ mws a s', New mws s = Ok (a, s') → wf s') ∧
  (∀ a pat mws na s', Group a pat mws s = Ok (na, s') → wf s') ∧
  (∀ a mws x s', Use a mws s = Ok (x, s') → wf s') ∧
  (∀ a name mws x s', Define a name mws s = Ok (x, s') → wf s') ∧
  (∀ a method pat h x s', Handle a method pat h s = Ok (x, s') → wf s') ∧
  (∀ a pat other mws x s', Mount a pat other mws s = Ok (x, s') → wf s') ∧
  (∀ fuel a name x s', UseNamed fuel a name s = Ok (x, s') → wf s').
Proof.
  intros Hwf. split; [reflexivity|].
  split; [intros mws a s'; apply New_wf, Hwf|].
  split; [intros a pat mws na s'; apply Group_wf, Hwf|].
  split; [intros a mws x s'; apply Use_wf, Hwf|].
  split; [intros a name mws x s'; apply Define_wf, Hwf|].
  split; [intros a method pat h x s'; apply Handle_wf, Hwf|].
  split; [intros a pat other mws x s'; apply Mount_wf, Hwf|].
  intros fuel a name x s'. apply UseNamed_wf, Hwf.
Qed.

Lemma X12_setup_keeps_wf_witness :
  wf emptyStore ∧
  (∀ mws a s', New mws mountScene = Ok (a, s') → wf s') ∧
  (∀ a pat mws na s', Group a pat mws mountScene = Ok (na, s') → wf s') ∧
  (∀ a mws x s', Use a mws mountScene = Ok (x, s') → wf s') ∧
  (∀ a name mws x s', Define a name mws mountScene = Ok (x, s') → wf s') ∧
  (∀ a method pat h x s', Handle a method pat h mountScene = Ok (x, s') → wf s') ∧
  (∀ a pat other mws x s', Mount a pat other mws mountScene = Ok (x, s') → wf s') ∧
  (∀ fuel a name x s', UseNamed fuel a name mountScene = Ok (x, s') → wf s').
Proof. apply (X12_setup_keeps_wf mountScene). vm_compute. reflexivity. Defined.

(** ** Registration on any node *)

(** X13: in a well-formed store, [Handle] with a relative pattern that
    passes [validatePattern] and an absolute pattern that starts with '/'
    returns for each supported verb and panics for any other.  When it
    returns, the node has one more registered entry and the matcher of the
    node's parent one more [Set] call, both with the handler wrapped by the
    middlewares in scope; nothing else changes. *)
Theorem X13_Handle_registers
    (s : store) (a : addr) (r : Router) (method pat : string) (h : Handler) :
  wf s →
  routers s !! a = Some r →
  validatePattern pat = Ok tt →
  startsWithSlash (handlePattern (isRoot a r) (pattern r) pat) = true →
  ∃ (mws : Middlewares) (up : Router) (calls : list setCall),
    scopeMiddlewares (length (routers s)) (routers s) a = Some mws ∧
    routers s !! router r = Some up ∧
    matchers s !! rm up = Some calls ∧
    (In method allowedHTTPMethods →
       Handle a method pat h s =
         Ok (tt,
             mkStore
               (<[a := mkRouter (rm r) (router r) (middlewares r) (pattern r)
                         (notFoundHandler r)
                         (registeredHandlers r ++
                            [mkRegistered method pat (BuildHandler mws h)])
                         (namedMiddlewares r)]> (routers s))
               (<[rm up := calls ++ [mkSet (handlePattern (isRoot a r) (pattern r) pat)
                                           (BuildHandler mws h) [method]]]>
                  (matchers s)))) ∧
    (¬ In method allowedHTTPMethods →
       Handle a method pat h s = Panic ("lion: invalid http method => " +:+ method)).
Proof.
  intros Hwf Hr Hv Hs.
  assert (Ha : a < length (routers s)) by (eapply lookup_lt_Some; eauto).
  destruct (scope_routers s a Hwf Ha) as [mws Hmws].
  destruct (wf_lookup s a r Hwf Hr) as [Hle _].
  destruct (lookup_lt_is_Some_2 (routers s) (router r) ltac:(lia)) as [up Hup].
  destruct (wf_lookup s _ up Hwf Hup) as [_ Hrm].
  destruct (lookup_lt_is_Some_2 _ _ Hrm) as [calls Hcalls].
  exists mws, up, calls. split; [exact Hmws|]. split; [exact Hup|]. split; [exact Hcalls|].
  set (r1 := mkRouter (rm r) (router r) (middlewares r) (pattern r) (notFoundHandler r)
               (registeredHandlers r ++ [mkRegistered method pat (BuildHandler mws h)])
               (namedMiddlewares r)).
  assert (Hup1 : ∃ up1, <[a := r1]> (routers s) !! router r = Some up1 ∧ rm up1 = rm up).
  { destruct (decide (a = router r)) as [E|E].
    - exists r1. rewrite <- E. split; [apply list_lookup_insert_eq, Ha|].
      rewrite <- E, Hr in Hup. inversion Hup; subst up. reflexivity.
    - exists up. split; [|reflexivity]. rewrite list_lookup_insert_ne by exact E. exact Hup. }
  destruct Hup1 as (up1 & Hup1 & Hrm1).
  assert (Hrun : Handle a method pat h s =
                 Register (rm up) method (handlePattern (isRoot a r) (pattern r) pat)
                          (BuildHandler mws h) (setRouter a r1 s)).
  { unfold Handle. rewrite Hv. cbn [rbind]. unfold getRouter at 1. rewrite Hr. cbn [rbind].
    rewrite buildMiddlewares_scope, Hmws. cbn [rbind].
    unfold getRouter, setRouter; cbn [routers]. fold r1. rewrite Hup1. cbn [rbind].
    rewrite Hrm1. reflexivity. }
  rewrite Hrun. unfold Register, setRouter; cbn [routers matchers]. split.
  - intros Hin. apply isInStringSlice_In in Hin.
    rewrite (prevalidation_slash _ _ Hs Hin). cbn [rbind]. rewrite Hcalls. reflexivity.
  - intros Hnot. unfold prevalidation. rewrite Hs.
    assert (Hlen : (String.length (handlePattern (isRoot a r) (pattern r) pat) =? 0) = false).
    { destruct (handlePattern (isRoot a r) (pattern r) pat); [discriminate|reflexivity]. }
    rewrite Hlen.
    destruct (isInStringSlice allowedHTTPMethods method) eqn:Hin.
    + exfalso. apply Hnot. apply isInStringSlice_In. exact Hin.
    + reflexivity.
Qed.

Lemma X13_Handle_registers_witness :
  ∃ (mws : Middlewares) (up : Router) (calls : list setCall),
    scopeMiddlewares (length (routers slashScene)) (routers slashScene) 0 = Some mws ∧
    routers slashScene !! router (mkRouter 0 0 [] "" None [] ∅) = Some up ∧
    matchers slashScene !! rm up = Some calls ∧
    (In "BREW" allowedHTTPMethods →
       Handle 0 "BREW" "/" (terminal "H") slashScene =
         Ok (tt,
             mkStore
               (<[0 := mkRouter (rm (mkRouter 0 0 [] "" None [] ∅))
                         (router (mkRouter 0 0 [] "" None [] ∅))
                         (middlewares (mkRouter 0 0 [] "" None [] ∅))
                         (pattern (mkRouter 0 0 [] "" None [] ∅))
                         (notFoundHandler (mkRouter 0 0 [] "" None [] ∅))
                         (registeredHandlers (mkRouter 0 0 [] "" None [] ∅) ++
                            [mkRegistered "BREW" "/" (BuildHandler mws (terminal "H"))])
                         (namedMiddlewares (mkRouter 0 0 [] "" None [] ∅))]>
                  (routers slashScene))
               (<[rm up := calls ++
                             [mkSet (handlePattern (isRoot 0 (mkRouter 0 0 [] "" None [] ∅))
                                       (pattern (mkRouter 0 0 [] "" None [] ∅)) "/")
                                    (BuildHandler mws (terminal "H")) ["BREW"]]]>
                  (matchers slashScene)))) ∧
    (¬ In "BREW" allowedHTTPMethods →
       Handle 0 "BREW" "/" (terminal "H") slashScene
         = Panic ("lion: invalid http method => " +:+ "BREW")).
Proof.
  apply (X13_Handle_registers slashScene 0 (mkRouter 0 0 [] "" None [] ∅)
           "BREW" "/" (terminal "H")).
  - vm_compute. reflexivity.
  - reflexivity.
  - reflexivity.
  - reflexivity.
Defined.

(** ** Middlewares bind at registration *)

(** A walk to the root from below an address never visits it. *)
Lemma scope_insert_above (rs : list Router) (i : addr) (x : Router) :
  (∀ a r, rs !! a = Some r → router r ≤ a) →
  ∀ fuel b, b < i →
  scopeMiddlewares fuel (<[i := x]> rs) b = scopeMiddlewares fuel rs b.
Proof.
  intros HD. induction fuel as [|fuel IH]; intros b Hb; [reflexivity|].
  cbn [scopeMiddlewares].
  rewrite list_lookup_insert_ne by lia.
  destruct (rs !! b) as [r|] eqn:Hr; [|reflexivity].
  destruct (isRoot b r); [reflexivity|].
  rewrite IH by (specialize (HD b r Hr); lia). reflexivity.
Qed.

(** X14: a middleware applies to the routes registered after it was
    added.  [Use] on a node extends the scope of the node, and of each of
    its direct groups, by the new middlewares, placed after the node's
    earlier ones and before the group's own; the scope of every node
    allocated earlier, the entries already registered on the node and every
    matcher, so every handler registered before, stay as they were. *)
Theorem X14_Use_binds_later_routes
    (s : store) (a : addr) (r : Router) (scope m : Middlewares) :
  wf s →
  routers s !! a = Some r →
  scopeMiddlewares (length (routers s)) (routers s) a = Some scope →
  ∃ s', Use a m s = Ok (tt, s') ∧
        scopeMiddlewares (length (routers s')) (routers s') a = Some (scope ++ m) ∧
        (∀ c rc, routers s !! c = Some rc → router rc = a → c ≠ a →
           scopeMiddlewares (length (routers s')) (routers s') c
             = Some (scope ++ m ++ middlewares rc)) ∧
        (∀ b, b < a →
           scopeMiddlewares (length (routers s')) (routers s') b
             = scopeMiddlewares (length (routers s)) (routers s) b) ∧
        (registeredHandlers <$> routers s' !! a) = Some (registeredHandlers r) ∧
        matchers s' = matchers s.
Proof.
  intros Hwf Hr Hscope.
  assert (Ha : a < length (routers s)) by (eapply lookup_lt_Some; eauto).
  assert (HD : ∀ b q, routers s !! b = Some q → router q ≤ b)
    by (intros b q Hq; apply (wf_lookup s b q Hwf Hq)).
  eexists. split; [apply (Use_ok a m s r Hr)|].
  unfold setRouter; cbn [routers matchers]. rewrite length_insert.
  set (r' := mkRouter (rm r) (router r) (middlewares r ++ m) (pattern r)
               (notFoundHandler r) (registeredHandlers r) (namedMiddlewares r)).
  assert (Hat : ∀ fuel, a < fuel →
            scopeMiddlewares fuel (<[a := r']> (routers s)) a = Some (scope ++ m)).
  { intros fuel Hf. destruct fuel as [|fuel]; [lia|]. cbn [scopeMiddlewares].
    rewrite list_lookup_insert_eq by exact Ha.
    assert (Hs1 : scopeMiddlewares (S fuel) (routers s) a = Some scope).
    { destruct (scope_exists s Hwf (S fuel) a Hf Ha) as [x Hx].
      rewrite Hx. f_equal.
      destruct (Nat.le_ge_cases (S fuel) (length (routers s))) as [Hle|Hge].
      - pose proof (scope_mono_fuel _ _ _ _ _ Hx Hle) as E. congruence.
      - pose proof (scope_mono_fuel _ _ _ _ _ Hscope Hge) as E. congruence. }
    cbn [scopeMiddlewares] in Hs1. rewrite Hr in Hs1.
    change (isRoot a r') with (isRoot a r). cbn [router r' middlewares].
    destruct (isRoot a r) eqn:Hroot.
    - inversion Hs1; subst. reflexivity.
    - unfold isRoot in Hroot. apply Nat.eqb_neq in Hroot.
      rewrite scope_insert_above by (try exact HD; specialize (HD a r Hr); lia).
      destruct (scopeMiddlewares fuel (routers s) (router r)) as [up|]; [|discriminate].
      inversion Hs1; subst. rewrite app_assoc. reflexivity. }
  split; [apply Hat, Ha|]. split; [|split; [|split]].
  - intros c rc Hc Hp Hne.
    assert (Hc' : c < length (routers s)) by (eapply lookup_lt_Some; eauto).
    assert (Hac : a < c) by (specialize (HD c rc Hc); lia).
    destruct (length (routers s)) as [|n] eqn:Hn; [lia|]. cbn [scopeMiddlewares].
    rewrite list_lookup_insert_ne by exact (fun E => Hne (eq_sym E)). rewrite Hc.
    unfold isRoot. rewrite Hp. apply Nat.eqb_neq in Hne.
    rewrite Nat.eqb_sym, Hne. rewrite Hat by lia. rewrite <- app_assoc. reflexivity.
  - intros b Hb. apply scope_insert_above; assumption.
  - rewrite list_lookup_insert_eq by exact Ha. reflexivity.
  - reflexivity.
Qed.

Lemma X14_Use_binds_later_routes_witness :
  ∃ s', Use 0 [announce "late"] orderScene = Ok (tt, s') ∧
        scopeMiddlewares (length (routers s')) (routers s') 0
          = Some ([announce "M1"] ++ [announce "late"]) ∧
        (∀ c rc, routers orderScene !! c = Some rc → router rc = 0 → c ≠ 0 →
           scopeMiddlewares (length (routers s')) (routers s') c
             = Some ([announce "M1"] ++ [announce "late"] ++ middlewares rc)) ∧
        (∀ b, b < 0 →
           scopeMiddlewares (length (routers s')) (routers s') b
             = scopeMiddlewares (length (routers orderScene)) (routers orderScene) b) ∧
        (registeredHandlers <$> routers s' !! 0)
          = Some (registeredHandlers (mkRouter 0 0 [announce "M1"] "" None [] ∅)) ∧
        matchers s' = matchers orderScene.
Proof.
  apply (X14_Use_binds_later_routes orderScene 0 (mkRouter 0 0 [announce "M1"] "" None [] ∅)
           [announce "M1"] [announce "late"]).
  - vm_compute. reflexivity.
  - reflexivity.
  - reflexivity.
Defined.

(** ** Nesting groups *)

Lemma append_empty_r (p : string) : p +:+ "" = p.
Proof.
  induction p as [|c p IH]; [reflexivity|].
  change (String c (p +:+ "") = String c p). f_equal. exact IH.
Qed.

Lemma append_assoc (p q t : string) : (p +:+ q) +:+ t = p +:+ (q +:+ t).
Proof.
  induction p as [|c p IH]; [reflexivity|].
  change (String c ((p +:+ q) +:+ t) = String c (p +:+ (q +:+ t))). f_equal. exact IH.
Qed.

Lemma startsWithSlash_append (p q : string) :
  (p = "" ∧ startsWithSlash q = true) ∨ startsWithSlash p = true →
  startsWithSlash (p +:+ q) = true.
Proof.
  intros [[-> Hq]|Hp]; [exact Hq|].
  destruct p as [|c p]; [discriminate|]. exact Hp.
Qed.

(** X15: nesting composes patterns by concatenation.  Under a node whose
    pattern is empty or starts with '/', a chain of groups whose segments
    start with '/' and are not just "/" is created without panic; the
    innermost group's pattern is the node's pattern followed by the
    segments in order; no existing node and no matcher changes. *)
Theorem X15_nested_groups_concatenate
    (segs : list string) (s : store) (a : addr) (r : Router) :
  routers s !! a = Some r →
  pattern r = "" ∨ startsWithSlash (pattern r) = true →
  Forall (fun seg => startsWithSlash seg = true ∧ seg ≠ "/") segs →
  ∃ g s', groupChain a segs s = Ok (g, s') ∧
          (pattern <$> routers s' !! g) = Some (pattern r +:+ foldr String.append "" segs) ∧
          (∀ b, b < length (routers s) → routers s' !! b = routers s !! b) ∧
          length (routers s') = length (routers s) + length segs ∧
          matchers s' = matchers s.
Proof.
  revert s a r. induction segs as [|seg rest IH]; intros s a r Hr Hbase Hall.
  - exists a, s. split; [reflexivity|]. cbn [foldr]. rewrite append_empty_r, Hr.
    split; [reflexivity|]. split; [reflexivity|]. split; [simpl; lia|reflexivity].
  - inversion Hall as [|? ? [Hseg Hne] Hrest]; subst.
    assert (Hgp : groupPattern (pattern r) seg = pattern r +:+ seg)
      by (apply groupPattern_concat; left; exact Hne).
    assert (Hstart : startsWithSlash (pattern r +:+ seg) = true).
    { apply startsWithSlash_append. destruct Hbase as [E|E]; [left|right]; auto. }
    assert (Hv : validatePattern (groupPattern (pattern r) seg) = Ok tt)
      by (rewrite Hgp; apply validatePattern_slash, Hstart).
    cbn [groupChain]. rewrite (Group_ok a seg [] s r Hr Hv). cbn [rbind].
    set (nr := mkRouter (rm r) a [] (groupPattern (pattern r) seg) None [] ∅).
    destruct (IH (mkStore (routers s ++ [nr]) (matchers s)) (length (routers s)) nr)
      as (g & s' & Hrun & Hpat & Hold & Hlen & Hm).
    + apply lookup_snoc_new.
    + right. cbn [pattern nr]. rewrite Hgp. exact Hstart.
    + exact Hrest.
    + exists g, s'. split; [exact Hrun|].
      cbn [routers matchers pattern nr] in *. rewrite length_app in *. cbn [length] in *.
      split; [|split; [|split]].
      * rewrite Hpat, Hgp. cbn [foldr]. rewrite append_assoc. reflexivity.
      * intros b Hb. rewrite Hold by lia. apply lookup_app_l. exact Hb.
      * lia.
      * exact Hm.
Qed.

Lemma X15_nested_groups_concatenate_witness :
  ∃ g s', groupChain 1 ["/v1"; "/users"; "/:id"] slashScene = Ok (g, s') ∧
          (pattern <$> routers s' !! g)
            = Some (pattern (mkRouter 0 0 [] "/a" None [] ∅)
                      +:+ foldr String.append "" ["/v1"; "/users"; "/:id"]) ∧
          (∀ b, b < length (routers slashScene) → routers s' !! b = routers slashScene !! b) ∧
          length (routers s')
            = length (routers slashScene) + length ["/v1"; "/users"; "/:id"] ∧
          matchers s' = matchers slashScene.
Proof.
  apply (X15_nested_groups_concatenate ["/v1"; "/users"; "/:id"] slashScene 1
           (mkRouter 0 0 [] "/a" None [] ∅)).
  - reflexivity.
  - right. reflexivity.
  - repeat constructor; discriminate.
Defined.

(** ** Adding and looking up parameters *)

Lemma ParamOk_loop_snoc (k k' v : string) : ∀ ps,
  ParamOk_loop (ps ++ [mkParameter k v]) k' =
    if snd (ParamOk_loop ps k') then ParamOk_loop ps k'
    else if decide (k = k') then (v, true) else ("", false).
Proof.
  induction ps as [|p ps IH]; simpl.
  - destruct (decide (k = k')); reflexivity.
  - destruct (decide (key p = k')); [reflexivity|exact IH].
Qed.

(** X16: adding a pair and looking up.  [AddParam] changes the lookup of
    no other key; the lookup of its own key finds the new value when the key
    had no pair, and still finds the earlier value when it had one.
    [Param] is the value part of [ParamOk]. *)
Theorem X16_AddParam_lookup (k v : string) (c : ctx) :
  (∀ k', k' ≠ k → ParamOk k' (AddParam k v c) = ParamOk k' c) ∧
  (snd (ParamOk k c) = false → ParamOk k (AddParam k v c) = (v, true)) ∧
  (snd (ParamOk k c) = true → ParamOk k (AddParam k v c) = ParamOk k c) ∧
  (snd (ParamOk k c) = false → Param k c = "" ∧ Param k (AddParam k v c) = v).
Proof.
  assert (Hnone : ∀ ps k0, snd (ParamOk_loop ps k0) = false → ParamOk_loop ps k0 = ("", false)).
  { induction ps as [|p ps IH]; intros k0 H; simpl in *; [reflexivity|].
    destruct (decide (key p = k0)); [discriminate|auto]. }
  unfold Param, ParamOk, AddParam; cbn [params].
  split; [|split; [|split]].
  - intros k' Hne. rewrite ParamOk_loop_snoc.
    destruct (snd (ParamOk_loop (params c) k')) eqn:E; [reflexivity|].
    destruct (decide (k = k')) as [->|_]; [contradiction|]. symmetry. apply Hnone, E.
  - intros H. rewrite ParamOk_loop_snoc, H.
    destruct (decide (k = k)); [reflexivity|contradiction].
  - intros H. rewrite ParamOk_loop_snoc, H. reflexivity.
  - intros H. rewrite ParamOk_loop_snoc, H, (Hnone _ _ H).
    destruct (decide (k = k)); [split; reflexivity|contradiction].
Qed.

(** ** Redirect *)

(** X17: [Redirect] returns no error exactly when the staged code lies
    from 300 to 308 (given a writer and a request): it hands the writer, the
    url and the staged code to [http.Redirect]; with any other code it
    returns only the error.  In both cases it leaves the status-written flag,
    the staged code and the parameters as they were. *)
Theorem X17_Redirect_outcome
    (c : ctx) (urlStr : string) (w : responseWriter) (rq : request) :
  ResponseWriter c = Some w → req c = Some rq →
  ∃ c' err,
    Redirect urlStr c = Ok (c', err) ∧
    (err = None ↔ (300 ≤ code c ≤ 308)%Z) ∧
    (err = None → ResponseWriter c' = Some (http_Redirect urlStr (code c) w)) ∧
    (err ≠ None → err = Some ErrInvalidRedirectStatusCode ∧ c' = c) ∧
    statusWritten c' = statusWritten c ∧ code c' = code c ∧ params c' = params c.
Proof.
  intros Hw Hr. unfold Redirect. rewrite Hw, Hr.
  destruct (code c <? 300)%Z eqn:E1; [|destruct (code c >? 308)%Z eqn:E2]; cbn [orb].
  - apply Z.ltb_lt in E1. exists c, (Some ErrInvalidRedirectStatusCode).
    split; [reflexivity|]. split; [split; [discriminate|lia]|].
    split; [discriminate|]. repeat split.
  - rewrite Z.gtb_ltb in E2. apply Z.ltb_lt in E2. exists c, (Some ErrInvalidRedirectStatusCode).
    split; [reflexivity|]. split; [split; [discriminate|lia]|].
    split; [discriminate|]. repeat split.
  - apply Z.ltb_ge in E1. rewrite Z.gtb_ltb in E2. apply Z.ltb_ge in E2.
    eexists. exists None. split; [reflexivity|]. split; [split; [lia|reflexivity]|].
    split; [reflexivity|]. split; [intros H; contradiction|]. repeat split.
Qed.

Lemma X17_Redirect_outcome_witness :
  ∃ c' err,
    Redirect "/login" (WithStatus 302 demoCtx) = Ok (c', err) ∧
    (err = None ↔ (300 ≤ code (WithStatus 302 demoCtx) ≤ 308)%Z) ∧
    (err = None →
       ResponseWriter c'
         = Some (http_Redirect "/login" (code (WithStatus 302 demoCtx)) demoWriter)) ∧
    (err ≠ None → err = Some ErrInvalidRedirectStatusCode ∧ c' = WithStatus 302 demoCtx) ∧
    statusWritten c' = statusWritten (WithStatus 302 demoCtx) ∧
    code c' = code (WithStatus 302 demoCtx) ∧
    params c' = params (WithStatus 302 demoCtx).
Proof.
  apply (X17_Redirect_outcome (WithStatus 302 demoCtx) "/login" demoWriter
           (mkRequest "GET" "/users/42")).
  - reflexivity.
  - reflexivity.
Defined.
